(** * The mashup pipeline of [api/mashup.py]

    A shallow embedding of the request validator, the four pipeline
    stages ([download_and_convert], [trim_and_merge], [create_zip],
    [send_email]), the orchestrator [create_mashup] and the POST handler,
    followed by the properties of the pipeline.

    Conventions of the model.
    - A Python [str] is a [string]: the UTF-8 bytes of the text.
      [strip] and [int] know the white space and the decimal digits of
      all scripts (Unicode 14, as CPython 3.11 has them); [lower] acts
      on the ASCII letters, which is what the program's one test of a
      lower-cased text looks at.
    - A Python exception is an [exn]: its class name and [str(e)].  Only
      classes derived from [Exception] are modelled.
    - The file system, the process environment, the console and the
      calls made to the outside are the fields of a [World]; what the
      outside answers is an [Externals] record.  A stage is a function
      from a world to an outcome and a new world. *)

From Stdlib Require Import List String Ascii ZArith Lia Bool Arith.
From Stdlib Require Import DecimalString DecimalZ Sorting.Sorted.
Import ListNotations.

Open Scope string_scope.
Open Scope Z_scope.

(** ** Python strings *)

Module Py.

Definition dq : string := String (ascii_of_nat 34) EmptyString.
Definition nl : string := String (ascii_of_nat 10) EmptyString.

(** [str.isspace] on the ASCII range: TAB..CR, FS..US and SPACE. *)
Definition is_space (c : ascii) : bool :=
  let n := nat_of_ascii c in
  ((9 <=? n) && (n <=? 13) || (28 <=? n) && (n <=? 32))%nat.

Definition is_digit (c : ascii) : bool :=
  let n := nat_of_ascii c in ((48 <=? n) && (n <=? 57))%nat.

Definition is_upper (c : ascii) : bool :=
  let n := nat_of_ascii c in ((65 <=? n) && (n <=? 90))%nat.

Definition is_lower (c : ascii) : bool :=
  let n := nat_of_ascii c in ((97 <=? n) && (n <=? 122))%nat.

Definition is_alpha (c : ascii) : bool := is_upper c || is_lower c.

(** White space beyond ASCII, by its UTF-8 bytes: U+0085 and U+00A0, *)
Definition is_space2 (c1 c2 : ascii) : bool :=
  let n1 := nat_of_ascii c1 in
  let n2 := nat_of_ascii c2 in
  ((n1 =? 194) && ((n2 =? 133) || (n2 =? 160)))%nat.

(** U+1680, U+2000..U+200A, U+2028, U+2029, U+202F, U+205F and U+3000. *)
Definition is_space3 (c1 c2 c3 : ascii) : bool :=
  let n1 := nat_of_ascii c1 in
  let n2 := nat_of_ascii c2 in
  let n3 := nat_of_ascii c3 in
  ((n1 =? 225) && (n2 =? 154) && (n3 =? 128)
   || (n1 =? 226) && (n2 =? 128) &&
      ((128 <=? n3) && (n3 <=? 138) || (n3 =? 168) || (n3 =? 169) || (n3 =? 175))
   || (n1 =? 226) && (n2 =? 129) && (n3 =? 159)
   || (n1 =? 227) && (n2 =? 128) && (n3 =? 128))%nat.

(** [s.lstrip()]: the white-space characters at the start are dropped,
    whether they take one, two or three bytes. *)
Fixpoint lstrip (s : string) : string :=
  match s with
  | EmptyString => EmptyString
  | String c1 r1 =>
      if is_space c1 then lstrip r1
      else match r1 with
           | EmptyString => s
           | String c2 r2 =>
               if is_space2 c1 c2 then lstrip r2
               else match r2 with
                    | EmptyString => s
                    | String c3 r3 => if is_space3 c1 c2 c3 then lstrip r3 else s
                    end
           end
  end.

(** [s.rstrip()]: the string is cut where what follows is white space
    only. *)
Fixpoint rstrip (s : string) : string :=
  match s with
  | EmptyString => EmptyString
  | String c r =>
      match lstrip s with
      | EmptyString => EmptyString
      | _ => String c (rstrip r)
      end
  end.

(** [s.strip()] *)
Definition strip (s : string) : string := rstrip (lstrip s).

Definition lower_char (c : ascii) : ascii :=
  if is_upper c then ascii_of_nat (nat_of_ascii c + 32) else c.

(** [s.lower()] *)
Fixpoint lower (s : string) : string :=
  match s with
  | String c r => String (lower_char c) (lower r)
  | EmptyString => EmptyString
  end.

(** [needle in hay] *)
Fixpoint contains (needle hay : string) : bool :=
  String.prefix needle hay ||
  match hay with
  | String _ r => contains needle r
  | EmptyString => false
  end.

(** [s.endswith(suffix)] *)
Fixpoint endswith (suffix s : string) : bool :=
  String.eqb s suffix ||
  match s with
  | String _ r => endswith suffix r
  | EmptyString => false
  end.

(** [str(n)] for an [int] *)
Definition str_of_int (n : Z) : string := NilEmpty.string_of_int (Z.to_int n).

(** The code points of a string, [None] when the bytes are not the
    UTF-8 form of a text. *)
Definition continuation (c : ascii) : option N :=
  let n := N_of_ascii c in
  if ((128 <=? n) && (n <? 192))%N then Some (n - 128)%N else None.

Fixpoint utf8_decode (s : string) : option (list N) :=
  match s with
  | EmptyString => Some []
  | String c0 r0 =>
      let n0 := N_of_ascii c0 in
      if (n0 <? 128)%N then option_map (cons n0) (utf8_decode r0)
      else if ((194 <=? n0) && (n0 <? 224))%N then
        match r0 with
        | String c1 r1 =>
            match continuation c1 with
            | Some n1 => option_map (cons ((n0 - 192) * 64 + n1)%N) (utf8_decode r1)
            | None => None
            end
        | _ => None
        end
      else if ((224 <=? n0) && (n0 <? 240))%N then
        match r0 with
        | String c1 (String c2 r2) =>
            match continuation c1, continuation c2 with
            | Some n1, Some n2 =>
                let cp := ((n0 - 224) * 4096 + n1 * 64 + n2)%N in
                if ((2048 <=? cp) && negb ((55296 <=? cp) && (cp <? 57344)))%N
                then option_map (cons cp) (utf8_decode r2) else None
            | _, _ => None
            end
        | _ => None
        end
      else if ((240 <=? n0) && (n0 <? 245))%N then
        match r0 with
        | String c1 (String c2 (String c3 r3)) =>
            match continuation c1, continuation c2, continuation c3 with
            | Some n1, Some n2, Some n3 =>
                let cp := ((n0 - 240) * 262144 + n1 * 4096 + n2 * 64 + n3)%N in
                if ((65536 <=? cp) && (cp <? 1114112))%N
                then option_map (cons cp) (utf8_decode r3) else None
            | _, _, _ => None
            end
        | _ => None
        end
      else None
  end.

(** The white-space characters from U+0080 on. *)
Definition unicode_space (cp : N) : bool :=
  existsb (N.eqb cp) [133; 160; 5760; 8232; 8233; 8239; 8287; 12288]%N
  || ((8192 <=? cp) && (cp <=? 8202))%N.

(** The code points of the digit zero in the scripts that have decimal
    digits (Unicode 14, the table of CPython 3.11); the nine code points
    after each are the digits one to nine. *)
Definition decimal_zeros : list N :=
  [48; 1632; 1776; 1984; 2406; 2534; 2662; 2790;
   2918; 3046; 3174; 3302; 3430; 3558; 3664; 3792;
   3872; 4160; 4240; 6112; 6160; 6470; 6608; 6784;
   6800; 6992; 7088; 7232; 7248; 42528; 43216; 43264;
   43472; 43504; 43600; 44016; 65296; 66720; 68912; 69734;
   69872; 69942; 70096; 70384; 70736; 70864; 71248; 71360;
   71472; 71904; 72016; 72784; 73040; 73120; 92768; 92864;
   93008; 120782; 120792; 120802; 120812; 120822; 123200; 123632;
   125264; 130032]%N.

(** The value of a decimal digit of any script. *)
Definition decimal_value (cp : N) : option N :=
  match find (fun z => (z <=? cp) && (cp <? z + 10))%N decimal_zeros with
  | Some z => Some (cp - z)%N
  | None => None
  end.

(** What [int] makes of one character before it reads the literal: an
    ASCII character stays, white space becomes a space, a decimal digit
    becomes its ASCII digit, and anything else a question mark. *)
Definition int_char (cp : N) : N :=
  if (cp <? 127)%N then cp
  else if unicode_space cp then 32%N
  else match decimal_value cp with
       | Some d => (48 + d)%N
       | None => 63%N
       end.

(** The white space that [int] skips around the literal: TAB..CR and
    SPACE. *)
Definition c_space (n : N) : bool := ((9 <=? n) && (n <=? 13) || (n =? 32))%N.

Fixpoint skip_spaces (l : list N) : list N :=
  match l with
  | n :: r => if c_space n then skip_spaces r else l
  | [] => []
  end.

(** The digits of the literal, single underscores allowed between two
    digits: the value, the number of digits, and what follows. *)
Fixpoint scan_digits (l : list N) (acc : Z) (digits : N) (after_digit : bool)
  : option (Z * N * list N) :=
  match l with
  | n :: r =>
      if ((48 <=? n) && (n <=? 57))%N
      then scan_digits r (10 * acc + Z.of_N (n - 48)) (digits + 1)%N true
      else if (n =? 95)%N then
        (if after_digit then scan_digits r acc digits false else None)
      else if after_digit then Some (acc, digits, l) else None
  | [] => if after_digit then Some (acc, digits, []) else None
  end.

(** [sys.int_info.default_max_str_digits] *)
Definition int_max_str_digits : N := 4300.

Definition parse_int (l : list N) : option Z :=
  let l := skip_spaces l in
  let (negative, l) :=
    match l with
    | 45%N :: r => (true, r)
    | 43%N :: r => (false, r)
    | _ => (false, l)
    end in
  match scan_digits l 0 0%N false with
  | Some (v, digits, rest) =>
      if (int_max_str_digits <? digits)%N then None
      else match skip_spaces rest with
           | [] => Some (if negative then - v else v)
           | _ => None
           end
  | None => None
  end.

(** [int(s)] for a [str], in base 10. [None] is [ValueError]. *)
Definition int_of_str (s : string) : option Z :=
  match utf8_decode s with
  | Some cps => parse_int (map int_char cps)
  | None => None
  end.

End Py.

(** ** Exceptions and outcomes *)

Record exn := mkExn { exn_class : string; exn_msg : string }.

(** [Exception(msg)] *)
Definition Exception (msg : string) : exn := mkExn "Exception" msg.

Inductive result (A : Type) :=
| Return (a : A)
| Raise (e : exn).
Arguments Return {A} a.
Arguments Raise {A} e.

Definition is_return {A} (r : result A) : bool :=
  match r with Return _ => true | Raise _ => false end.

(** ** JSON values, as [json.loads] builds them

    A [dict] is the list of its items, each key once. *)

(** A [float]: a finite value (as a fraction), an infinity or a NaN. *)
Inductive pyfloat :=
| FFinite (num : Z) (den : positive)
| FInf
| FNaN.

#[warnings="-register-all"]
Inductive json :=
| JNull
| JBool (b : bool)
| JInt (z : Z)
| JFloat (f : pyfloat)
| JStr (s : string)
| JList (l : list json)
| JDict (d : list (string * json)).

Fixpoint assoc {V} (k : string) (d : list (string * V)) : option V :=
  match d with
  | [] => None
  | (k', v) :: r => if String.eqb k' k then Some v else assoc k r
  end.

Definition type_name (v : json) : string :=
  match v with
  | JNull => "NoneType" | JBool _ => "bool" | JInt _ => "int"
  | JFloat _ => "float" | JStr _ => "str" | JList _ => "list"
  | JDict _ => "dict"
  end.

(** [key in data] *)
Definition py_in (key : string) (data : json) : result bool :=
  match data with
  | JDict d => Return (match assoc key d with Some _ => true | None => false end)
  | JList l =>
      Return (existsb (fun v => match v with JStr s => String.eqb s key | _ => false end) l)
  | JStr s => Return (Py.contains key s)
  | _ => Raise (mkExn "TypeError"
             ("argument of type '" ++ type_name data ++ "' is not iterable"))
  end.

(** [data[key]] for a string key *)
Definition getitem (data : json) (key : string) : result json :=
  match data with
  | JDict d =>
      match assoc key d with
      | Some v => Return v
      | None => Raise (mkExn "KeyError" ("'" ++ key ++ "'"))
      end
  | JList _ => Raise (mkExn "TypeError" "list indices must be integers or slices, not str")
  | JStr _ => Raise (mkExn "TypeError" "string indices must be integers")
  | _ => Raise (mkExn "TypeError"
             ("'" ++ type_name data ++ "' object is not subscriptable"))
  end.

(** [v.strip()] *)
Definition py_strip (v : json) : result string :=
  match v with
  | JStr s => Return (Py.strip s)
  | _ => Raise (mkExn "AttributeError"
             ("'" ++ type_name v ++ "' object has no attribute 'strip'"))
  end.

(** [int(v)] *)
Definition py_int (v : json) : result Z :=
  match v with
  | JInt z => Return z
  | JBool b => Return (if b then 1 else 0)
  | JFloat (FFinite n d) => Return (Z.quot n (Zpos d))
  | JFloat FInf => Raise (mkExn "OverflowError" "cannot convert float infinity to integer")
  | JFloat FNaN => Raise (mkExn "ValueError" "cannot convert float NaN to integer")
  | JStr s =>
      match Py.int_of_str s with
      | Some z => Return z
      | None => Raise (mkExn "ValueError"
                  ("invalid literal for int() with base 10: '" ++ s ++ "'"))
      end
  | _ => Raise (mkExn "TypeError"
             ("int() argument must be a string, a bytes-like object or a real number, not '"
              ++ type_name v ++ "'"))
  end.

(** ** Regular expressions, by derivatives *)

Module Re.

Inductive regex :=
| Empty
| Eps
| Class (p : ascii -> bool)
| Seq (r1 r2 : regex)
| Alt (r1 r2 : regex)
| Star (r : regex).

Definition Plus (r : regex) : regex := Seq r (Star r).
Definition Chr (c : ascii) : regex := Class (Ascii.eqb c).

Fixpoint nullable (r : regex) : bool :=
  match r with
  | Empty => false
  | Eps => true
  | Class _ => false
  | Seq r1 r2 => nullable r1 && nullable r2
  | Alt r1 r2 => nullable r1 || nullable r2
  | Star _ => true
  end.

Fixpoint deriv (c : ascii) (r : regex) : regex :=
  match r with
  | Empty => Empty
  | Eps => Empty
  | Class p => if p c then Eps else Empty
  | Seq r1 r2 =>
      if nullable r1 then Alt (Seq (deriv c r1) r2) (deriv c r2)
      else Seq (deriv c r1) r2
  | Alt r1 r2 => Alt (deriv c r1) (deriv c r2)
  | Star r1 => Seq (deriv c r1) (Star r1)
  end.

Fixpoint fullmatch (r : regex) (s : string) : bool :=
  match s with
  | EmptyString => nullable r
  | String c s' => fullmatch (deriv c r) s'
  end.

Fixpoint drop_last (s : string) : string :=
  match s with
  | EmptyString => EmptyString
  | String c EmptyString => EmptyString
  | String c r => String c (drop_last r)
  end.

(** [re.match('^' r '$', s) is not None]: without MULTILINE, [$] holds
    at the end and just before a newline that ends the string. *)
Definition match_anchored (r : regex) (s : string) : bool :=
  fullmatch r s || (Py.endswith Py.nl s && fullmatch r (drop_last s)).

End Re.

(** ** Validation *)

Definition email_local_char (c : ascii) : bool :=
  Py.is_alpha c || Py.is_digit c ||
  existsb (Ascii.eqb c) ["."; "_"; "%"; "+"; "-"]%char.

Definition email_domain_char (c : ascii) : bool :=
  Py.is_alpha c || Py.is_digit c || existsb (Ascii.eqb c) ["."; "-"]%char.

(** [^[a-zA-Z0-9._%+-]+@[a-zA-Z0-9.-]+\.[a-zA-Z]{2,}$] without the anchors *)
Definition email_pattern : Re.regex :=
  Re.Seq (Re.Plus (Re.Class email_local_char))
 (Re.Seq (Re.Chr "@")
 (Re.Seq (Re.Plus (Re.Class email_domain_char))
 (Re.Seq (Re.Chr ".")
 (Re.Seq (Re.Class Py.is_alpha)
 (Re.Seq (Re.Class Py.is_alpha) (Re.Star (Re.Class Py.is_alpha))))))).

Definition validate_email (email : json) : result bool :=
  match email with
  | JStr s => Return (Re.match_anchored email_pattern s)
  | _ => Raise (mkExn "TypeError" "expected string or bytes-like object")
  end.

(** A pure computation that may raise. *)
Definition rbind {A B} (r : result A) (k : A -> result B) : result B :=
  match r with
  | Return a => k a
  | Raise e => Raise e
  end.

(** [except (ValueError, TypeError)] *)
Definition is_value_or_type_error (e : exn) : bool :=
  String.eqb (exn_class e) "ValueError" || String.eqb (exn_class e) "TypeError".

(** The check of one integer field: the [try] around [int(...)] and the
    comparison with the bound. The result is the list of messages to
    append; an exception that the [except] clause does not name goes on. *)
Definition check_int_field (v : json) (bound : Z) (too_small invalid : string)
  : result (list string) :=
  match py_int v with
  | Return n => Return (if n <=? bound then [too_small] else [])
  | Raise e => if is_value_or_type_error e then Return [invalid] else Raise e
  end.

(** ['singer' not in data or not data['singer'].strip()] *)
Definition singer_missing (data : json) : result bool :=
  rbind (py_in "singer" data) (fun present =>
  if negb present then Return true
  else rbind (getitem data "singer") (fun v =>
       rbind (py_strip v) (fun s => Return (String.eqb s "")))).

(** The messages of the [num_videos] block. *)
Definition num_videos_errors (data : json) : result (list string) :=
  rbind (py_in "num_videos" data) (fun present =>
  if negb present then Return ["Number of videos is required"]
  else rbind (getitem data "num_videos") (fun v =>
       check_int_field v 10
         "Number of videos must be greater than 10"
         "Number of videos must be a valid integer")).

(** The messages of the [duration] block. *)
Definition duration_errors (data : json) : result (list string) :=
  rbind (py_in "duration" data) (fun present =>
  if negb present then Return ["Duration is required"]
  else rbind (getitem data "duration") (fun v =>
       check_int_field v 20
         "Duration must be greater than 20 seconds"
         "Duration must be a valid integer")).

(** ['email' not in data or not validate_email(data['email'])] *)
Definition email_invalid (data : json) : result bool :=
  rbind (py_in "email" data) (fun present =>
  if negb present then Return true
  else rbind (getitem data "email") (fun v =>
       rbind (validate_email v) (fun ok => Return (negb ok)))).

(** [validate_inputs(data)] *)
Definition validate_inputs (data : json) : result (list string) :=
  let errors := [] in
  rbind (singer_missing data) (fun bad_singer =>
  let errors :=
    if bad_singer then (errors ++ ["Singer name is required"])%list else errors in
  rbind (num_videos_errors data) (fun errs =>
  let errors := (errors ++ errs)%list in
  rbind (duration_errors data) (fun errs =>
  let errors := (errors ++ errs)%list in
  rbind (email_invalid data) (fun bad_email =>
  let errors :=
    if bad_email then (errors ++ ["Valid email address is required"])%list else errors in
  Return errors)))).

(** ** The world and the stage monad *)

(** A path is the list of its components; [os.path.join(p, name)] adds
    one.  Directories are implicit: they hold no data of their own, so
    [os.makedirs(..., exist_ok=True)] under the workspace changes
    nothing that the program can see. *)
Definition path := list string.
Definition path_join (p : path) (name : string) : path := (p ++ [name])%list.
Definition path_eq_dec : forall p q : path, {p = q} + {p <> q} :=
  list_eq_dec string_dec.

(** A waveform, one sample per millisecond.  An mp3 file is identified
    with the waveform it decodes to. *)
Definition audio := list Z.

#[warnings="-register-all"]
Inductive file :=
| Mp3 (a : audio)
| Junk (bytes : string)
| ZipFile (entries : list (string * file)).

(** The JSON payload of the notification request.  An attachment holds
    the file whose bytes the program encodes in base64. *)
Record email_data := mkEmail {
  ed_from : string;
  ed_to : list string;
  ed_subject : string;
  ed_html : string;
  ed_attachments : list (string * file)
}.

(** Calls that reach outside the process, in the order they are made. *)
Inductive event :=
| EvMkdtemp (r : result path)
| EvExtractInfo (query : string) (max_downloads : Z) (outdir : path)
| EvPost (url authorization : string) (payload : email_data)
| EvRmtree (p : path) (failure : option exn).

(** What the outside answers. *)
Record Externals := mkExternals {
  (** [tempfile.mkdtemp()]: the fresh directory, or the error *)
  ext_mkdtemp : result path;
  (** [ydl.extract_info(query, download=True)]: the files left in the
      output directory, in the order they were fetched, and whether the
      returned info is truthy, or the error raised *)
  ext_extract_info : string -> Z -> list (string * file) * result bool;
  (** the order in which [os.listdir] enumerates entries *)
  ext_listdir_order : list string -> list string;
  (** an encoder or storage failure when exporting to a path *)
  ext_export : path -> option exn;
  (** a storage failure when writing the archive *)
  ext_zip : path -> option exn;
  (** [requests.post]: status code and body text, or the transport error *)
  ext_post : string -> string -> email_data -> result (Z * string);
  (** a failure of [shutil.rmtree] *)
  ext_rmtree : path -> option exn
}.

Record World := mkWorld {
  fs : list (path * file);
  environ : list (string * string);
  stdout : list string;
  trace : list event
}.

Definition M (A : Type) : Type := World -> result A * World.

Definition ret {A} (a : A) : M A := fun w => (Return a, w).
Definition raise {A} (e : exn) : M A := fun w => (Raise e, w).

Definition bind {A B} (m : M A) (k : A -> M B) : M B :=
  fun w => match m w with
           | (Return a, w') => k a w'
           | (Raise e, w') => (Raise e, w')
           end.

(** [try: m  except Exception as e: h e] *)
Definition try_except {A} (m : M A) (h : exn -> M A) : M A :=
  fun w => match m w with
           | (Return a, w') => (Return a, w')
           | (Raise e, w') => h e w'
           end.

(** [try: m  finally: fin].  The [finally] block runs on both exits; an
    exception that leaves it replaces the pending outcome. *)
Definition try_finally {A} (m : M A) (fin : M unit) : M A :=
  fun w => let (r, w1) := m w in
           match fin w1 with
           | (Return _, w2) => (r, w2)
           | (Raise e, w2) => (Raise e, w2)
           end.

Declare Scope stage_scope.
Delimit Scope stage_scope with stage.
Notation "x <- c1 ;; c2" := (bind c1 (fun x => c2))
  (at level 61, c1 at next level, right associativity) : stage_scope.
Notation "c1 ;; c2" := (bind c1 (fun _ => c2))
  (at level 61, right associativity) : stage_scope.
Open Scope stage_scope.

(** *** File system *)

Fixpoint fs_read (p : path) (files : list (path * file)) : option file :=
  match files with
  | [] => None
  | (q, f) :: r => if path_eq_dec q p then Some f else fs_read p r
  end.

(** A new file goes after the existing ones; an existing file keeps
    its place. *)
Fixpoint fs_write (p : path) (f : file) (files : list (path * file))
  : list (path * file) :=
  match files with
  | [] => [(p, f)]
  | (q, g) :: r => if path_eq_dec q p then (p, f) :: r else (q, g) :: fs_write p f r
  end.

Fixpoint is_prefix (p q : path) : bool :=
  match p, q with
  | [], _ => true
  | a :: p', b :: q' => String.eqb a b && is_prefix p' q'
  | _ :: _, [] => false
  end.

Definition fs_remove_tree (p : path) (files : list (path * file)) : list (path * file) :=
  filter (fun e => negb (is_prefix p (fst e))) files.

(** The names of the files directly inside [dir], oldest first. *)
Definition fs_names (dir : path) (files : list (path * file)) : list string :=
  flat_map (fun e => if path_eq_dec (removelast (fst e)) dir
                     then match fst e with [] => [] | _ => [last (fst e) ""] end
                     else []) files.

Definition set_fs (files : list (path * file)) (w : World) : World :=
  mkWorld files (environ w) (stdout w) (trace w).
Definition log (ev : event) (w : World) : World :=
  mkWorld (fs w) (environ w) (stdout w) (trace w ++ [ev]).

Definition FileNotFoundError (p : path) : exn :=
  mkExn "FileNotFoundError"
    ("[Errno 2] No such file or directory: '/" ++ String.concat "/" p ++ "'").

(** [tempfile.mkdtemp()] *)
Definition mkdtemp (X : Externals) : M path :=
  fun w => let w' := log (EvMkdtemp (ext_mkdtemp X)) w in
           match ext_mkdtemp X with
           | Return p => (Return p, w')
           | Raise e => (Raise e, w')
           end.

(** [os.makedirs(p, exist_ok=True)], on a file system that works: the
    program only makes directories inside the one [mkdtemp] has just
    made. *)
Definition makedirs (p : path) : M unit := ret tt.

(** [os.listdir(p)], for a directory that exists. *)
Definition listdir (X : Externals) (p : path) : M (list string) :=
  fun w => (Return (ext_listdir_order X (fs_names p (fs w))), w).

(** [open(p, 'rb').read()] *)
Definition read_file (p : path) : M file :=
  fun w => match fs_read p (fs w) with
           | Some f => (Return f, w)
           | None => (Raise (FileNotFoundError p), w)
           end.

Definition write_file (p : path) (f : file) : M unit :=
  fun w => (Return tt, set_fs (fs_write p f (fs w)) w).

(** [shutil.rmtree(p)] *)
Definition rmtree (X : Externals) (p : path) : M unit :=
  fun w => let w' := log (EvRmtree p (ext_rmtree X p)) w in
           match ext_rmtree X p with
           | None => (Return tt, set_fs (fs_remove_tree p (fs w')) w')
           | Some e => (Raise e, w')
           end.

(** [os.environ.get(k)] *)
Definition environ_get (k : string) : M (option string) :=
  fun w => (Return (assoc k (environ w)), w).

(** [print(s)] *)
Definition print (s : string) : M unit :=
  fun w => (Return tt, mkWorld (fs w) (environ w) (stdout w ++ [s]) (trace w)).

(** *** The external services *)

(** [with YoutubeDL(ydl_opts) as ydl: ydl.extract_info(query, download=True)]
    with [outtmpl] under [outdir] and [max_downloads]. *)
Definition extract_info (X : Externals) (query : string) (max_downloads : Z)
    (outdir : path) : M bool :=
  fun w =>
    let (files, r) := ext_extract_info X query max_downloads in
    let w' := log (EvExtractInfo query max_downloads outdir) w in
    (r, set_fs (fold_left (fun acc nf => fs_write (path_join outdir (fst nf)) (snd nf) acc)
                          files (fs w')) w').

(** [AudioSegment.from_mp3(p)] *)
Definition from_mp3 (p : path) : M audio :=
  f <- read_file p ;;
  match f with
  | Mp3 a => ret a
  | _ => raise (mkExn "CouldntDecodeError" "Decoding failed. ffmpeg returned error code: 1")
  end.

(** [seg.export(p, format="mp3")].  The file written is taken to decode
    back to the waveform; of an empty waveform the real encoder leaves a
    file that does not decode, so what is stated about reading exported
    clips again is stated for clips that are not empty. *)
Definition export (X : Externals) (a : audio) (p : path) : M unit :=
  match ext_export X p with
  | Some e => raise e
  | None => write_file p (Mp3 a)
  end.

(** [seg[:ms]]: the first [ms] milliseconds, all of [seg] when it is
    shorter.  A negative stop counts from the end (and once more when it
    still falls before the start). *)
Definition slice_to (seg : audio) (ms : Z) : audio :=
  let len := Z.of_nat (List.length seg) in
  let stop :=
    if 0 <=? ms then Z.min ms len
    else let v := len + ms in
         if 0 <=? v then v else Z.max 0 (len + v) in
  firstn (Z.to_nat stop) seg.

(** [requests.post(url, headers={Authorization, Content-Type}, json=payload)] *)
Definition requests_post (X : Externals) (url authorization : string)
    (payload : email_data) : M (Z * string) :=
  fun w => (ext_post X url authorization payload, log (EvPost url authorization payload) w).

(** ** The pipeline stages *)

Section Pipeline.

Variable X : Externals.

(** [download_and_convert(singer, num_videos, temp_dir)] *)
Definition download_and_convert (singer : string) (num_videos : Z) (temp_dir : path)
  : M path :=
  let downloads_dir := path_join temp_dir "downloads" in
  makedirs downloads_dir ;;
  let search_query := "ytsearch" ++ Py.str_of_int num_videos ++ ":" ++ singer in
  try_except
    (info <- extract_info X search_query num_videos downloads_dir ;;
     if negb info
     then raise (Exception ("Could not find videos for '" ++ singer ++ "'"))
     else ret tt)
    (fun e => raise (Exception ("Download failed: " ++ exn_msg e))) ;;
  ret downloads_dir.

(** [enumerate(l, start)] *)
Fixpoint enumerate {A} (l : list A) (start : Z) : list (Z * A) :=
  match l with
  | [] => []
  | a :: r => (start, a) :: enumerate r (start + 1)
  end.

Definition trimmed_name (idx : Z) : string :=
  "trimmed_" ++ Py.str_of_int idx ++ ".mp3".

(** The body of the trimming loop for one file: the [try] block. *)
Definition trim_one (downloads_dir trimmed_dir : path) (duration : Z)
    (idx : Z) (file : string) (trimmed_files : list path) : M (list path) :=
  let file_path := path_join downloads_dir file in
  try_except
    (audio <- from_mp3 file_path ;;
     let trimmed_audio := slice_to audio (duration * 1000) in
     let output_path := path_join trimmed_dir (trimmed_name idx) in
     export X trimmed_audio output_path ;;
     ret (trimmed_files ++ [output_path])%list)
    (fun e =>
       print ("Error trimming " ++ file ++ ": " ++ exn_msg e) ;;
       ret trimmed_files).

(** [for idx, file in enumerate(mp3_files, 1): ...] *)
Fixpoint trim_loop (downloads_dir trimmed_dir : path) (duration : Z)
    (items : list (Z * string)) (trimmed_files : list path) : M (list path) :=
  match items with
  | [] => ret trimmed_files
  | (idx, file) :: rest =>
      trimmed_files' <- trim_one downloads_dir trimmed_dir duration idx file trimmed_files ;;
      trim_loop downloads_dir trimmed_dir duration rest trimmed_files'
  end.

(** [for file in trimmed_files: final_audio += AudioSegment.from_mp3(file)] *)
Fixpoint merge_loop (trimmed_files : list path) (final_audio : audio) : M audio :=
  match trimmed_files with
  | [] => ret final_audio
  | file :: rest =>
      audio <- from_mp3 file ;;
      merge_loop rest (final_audio ++ audio)%list
  end.

(** [trim_and_merge(downloads_dir, duration, temp_dir)] *)
Definition trim_and_merge (downloads_dir : path) (duration : Z) (temp_dir : path)
  : M path :=
  let trimmed_dir := path_join temp_dir "trimmed" in
  makedirs trimmed_dir ;;
  names <- listdir X downloads_dir ;;
  let mp3_files := filter (Py.endswith ".mp3") names in
  match mp3_files with
  | [] => raise (Exception "No audio files were downloaded")
  | _ =>
      trimmed_files <- trim_loop downloads_dir trimmed_dir duration
                         (enumerate mp3_files 1) [] ;;
      match trimmed_files with
      | [] => raise (Exception "No audio files could be processed")
      | _ =>
          final_audio <- merge_loop trimmed_files [] ;;
          let output_file := path_join temp_dir "mashup.mp3" in
          export X final_audio output_file ;;
          ret output_file
      end
  end.

(** [create_zip(mp3_file, temp_dir)] *)
Definition create_zip (mp3_file : path) (temp_dir : path) : M path :=
  let zip_path := path_join temp_dir "mashup.zip" in
  (* with zipfile.ZipFile(zip_path, 'w', ZIP_DEFLATED) as zipf *)
  match ext_zip X zip_path with
  | Some e => raise e
  | None => write_file zip_path (ZipFile [])
  end ;;
  (* zipf.write(mp3_file, 'mashup.mp3') *)
  content <- read_file mp3_file ;;
  write_file zip_path (ZipFile [("mashup.mp3", content)]) ;;
  ret zip_path.

Definition note_emoji : string :=
  String "240" (String "159" (String "142" (String "181" EmptyString))).
Definition party_emoji : string :=
  String "240" (String "159" (String "142" (String "137" EmptyString))).

Definition email_html (singer : string) : string :=
  let q := Py.dq in
  let line (s : string) := "                " ++ s ++ Py.nl in
  Py.nl ++
  "            <div style=" ++ q ++ "font-family: Arial, sans-serif; max-width: 600px; margin: 0 auto;" ++ q ++ ">" ++ Py.nl ++
  line ("<h2 style=" ++ q ++ "color: #667eea;" ++ q ++ ">Your Mashup is Ready! " ++ party_emoji ++ "</h2>") ++
  line "<p>Hi there!</p>" ++
  line ("<p>Your <strong>" ++ singer ++ "</strong> mashup has been successfully created.</p>") ++
  line "<p>Please find the attached ZIP file containing your mashup MP3.</p>" ++
  line ("<p>Enjoy your music! " ++ note_emoji ++ "</p>") ++
  line ("<hr style=" ++ q ++ "border: none; border-top: 1px solid #eee; margin: 20px 0;" ++ q ++ ">") ++
  line ("<p style=" ++ q ++ "color: #888; font-size: 12px;" ++ q ++ ">This is an automated email from Mashup Generator</p>") ++
  "            </div>" ++ Py.nl ++
  "        ".

(** The [email_data] dictionary. *)
Definition make_email_data (recipient_email singer : string) (zip_content : file)
  : email_data :=
  mkEmail "Mashup Generator <onboarding@resend.dev>"
          [recipient_email]
          (note_emoji ++ " Your " ++ singer ++ " Mashup is Ready!")
          (email_html singer)
          [("mashup.zip", zip_content)].

Definition resend_url : string := "https://api.resend.com/emails".

(** The message of every failure raised after the provider was called. *)
Definition delivery_error (detail : string) : exn :=
  Exception ("Failed to send email: " ++ detail).

Definition configuration_error : exn :=
  Exception "RESEND_API_KEY environment variable not set".

(** [send_email(zip_file, recipient_email, singer)] *)
Definition send_email (zip_file : path) (recipient_email singer : string) : M bool :=
  api_key <- environ_get "RESEND_API_KEY" ;;
  match api_key with
  | None | Some EmptyString => raise configuration_error
  | Some api_key =>
      zip_content <- read_file zip_file ;;
      let email_data := make_email_data recipient_email singer zip_content in
      try_except
        (response <- requests_post X resend_url ("Bearer " ++ api_key) email_data ;;
         if fst response =? 200 then ret true
         else raise (Exception ("Resend API error: " ++ snd response)))
        (fun e =>
           print ("Email error: " ++ exn_msg e) ;;
           raise (delivery_error (exn_msg e)))
  end.

Definition timeout_hint : exn :=
  Exception "Request timed out. Try reducing number of videos to 3-5, or upgrade to Vercel Pro for longer timeout.".

(** The test of the [except] clause of [create_mashup]. *)
Definition looks_time_based (error_msg : string) : bool :=
  Py.contains "timeout" (Py.lower error_msg) || Py.contains "time" (Py.lower error_msg).

(** The four stages in sequence: the [try] block of [create_mashup]. *)
Definition run_stages (singer : string) (num_videos duration : Z) (email : string)
    (temp_dir : path) : M bool :=
  downloads_dir <- download_and_convert singer num_videos temp_dir ;;
  mashup_file <- trim_and_merge downloads_dir duration temp_dir ;;
  zip_file <- create_zip mashup_file temp_dir ;;
  send_email zip_file email singer ;;
  ret true.

(** The [except Exception as e] clause. *)
Definition classify {A} (e : exn) : M A :=
  let error_msg := exn_msg e in
  if looks_time_based error_msg then raise timeout_hint else raise e.

(** The [finally] clause. *)
Definition cleanup (temp_dir : path) : M unit :=
  try_except (rmtree X temp_dir) (fun _ => ret tt).

(** [create_mashup(singer, num_videos, duration, email)] *)
Definition create_mashup (singer : string) (num_videos duration : Z) (email : string)
  : M bool :=
  temp_dir <- mkdtemp X ;;
  try_finally
    (try_except (run_stages singer num_videos duration email temp_dir) classify)
    (cleanup temp_dir).

(** ** The POST handler *)

(** A request: the Content-Length header, and what decoding and parsing
    the body gives. *)
Record request := mkRequest {
  req_content_length : option string;
  req_json : result json
}.

Record response := mkResponse {
  status : Z;
  body : list (string * json)
}.

Definition lift {A} (r : result A) : M A := fun w => (r, w).

(** The parsed body: [int(self.headers.get('Content-Length', 0))], then
    [json.loads] of the body when there is one, [{}] otherwise. *)
Definition request_data (req : request) : result json :=
  rbind (match req_content_length req with
         | Some h => py_int (JStr h)
         | None => py_int (JInt 0)
         end)
    (fun content_length =>
       if 0 <? content_length then req_json req else Return (JDict [])).

(** The [try] block of [do_POST]. *)
Definition handle_post (req : request) : M response :=
  data <- lift (request_data req) ;;
  errors <- lift (validate_inputs data) ;;
  match errors with
  | _ :: _ =>
      ret (mkResponse 400 [("success", JBool false);
                           ("error", JStr (String.concat "; " errors))])
  | [] =>
      singer <- lift (rbind (getitem data "singer") py_strip) ;;
      num_videos <- lift (rbind (getitem data "num_videos") py_int) ;;
      duration <- lift (rbind (getitem data "duration") py_int) ;;
      email <- lift (rbind (getitem data "email") py_strip) ;;
      create_mashup singer num_videos duration email ;;
      ret (mkResponse 200 [("success", JBool true);
                           ("message", JStr ("Mashup created and sent to " ++ email))])
  end.

(** [handler.do_POST] *)
Definition do_POST (req : request) : World -> response * World :=
  fun w => match handle_post req w with
           | (Return r, w') => (r, w')
           | (Raise e, w') =>
               (mkResponse 500 [("success", JBool false); ("error", JStr (exn_msg e))], w')
           end.

End Pipeline.

(** ** Sample runs *)

Module Sample.

Definition tmp : path := ["tmp"; "tmpab12cd"].

Definition song (k : Z) (ms : nat) : audio := repeat k ms.

(** Three sources are fetched; the second is not decodable. The
    directory is listed in the order the files were made. *)
Definition X0 : Externals :=
  mkExternals
    (Return tmp)
    (fun _ _ => ([("a.mp3", Mp3 (song 1 3)); ("b.mp3", Junk "xx");
                  ("c.mp3", Mp3 (song 3 2)); ("c.webm", Junk "yy")], Return true))
    (fun names => names)
    (fun _ => None)
    (fun _ => None)
    (fun _ _ _ => Return (200, "{}"))
    (fun _ => None).

(** The provider cannot be reached. *)
Definition X_unreachable : Externals :=
  mkExternals (Return tmp)
    (fun _ _ => ([], Raise (mkExn "DownloadError" "Unable to connect: network is unreachable")))
    (fun names => names) (fun _ => None) (fun _ => None)
    (fun _ _ _ => Return (200, "{}")) (fun _ => None).

(** The provider's socket times out. *)
Definition X_slow : Externals :=
  mkExternals (Return tmp)
    (fun _ _ => ([], Raise (mkExn "DownloadError" "Read timed out.")))
    (fun names => names) (fun _ => None) (fun _ => None)
    (fun _ _ _ => Return (200, "{}")) (fun _ => None).

(** The notification provider refuses the request. *)
Definition X_refused : Externals :=
  mkExternals (Return tmp)
    (fun _ _ => ([("a.mp3", Mp3 (song 1 3))], Return true))
    (fun names => names) (fun _ => None) (fun _ => None)
    (fun _ _ _ => Return (403, "{'message': 'API key is invalid'}")) (fun _ => None).


(** Two sources, of 3 seconds and of 1.5 seconds. *)
Definition X_long : Externals :=
  mkExternals (Return tmp)
    (fun _ _ => ([("a.mp3", Mp3 (song 1 3000)); ("c.mp3", Mp3 (song 3 1500))],
                 Return true))
    (fun names => names) (fun _ => None) (fun _ => None)
    (fun _ _ _ => Return (200, "{}")) (fun _ => None).

(** The provider gives up at its deadline. *)
Definition X_deadline : Externals :=
  mkExternals (Return tmp)
    (fun _ _ => ([], Raise (mkExn "DownloadError" "Connection deadline exceeded")))
    (fun names => names) (fun _ => None) (fun _ => None)
    (fun _ _ _ => Return (200, "{}")) (fun _ => None).

(** No result for a singer whose name contains "time". *)
Definition X_none : Externals :=
  mkExternals (Return tmp) (fun _ _ => ([], Return false))
    (fun names => names) (fun _ => None) (fun _ => None)
    (fun _ _ _ => Return (200, "{}")) (fun _ => None).

Definition w0 : World := mkWorld [] [("RESEND_API_KEY", "re_123")] [] [].


(** A request at the lower bound of [num_videos]. *)
Definition boundary_request : request :=
  mkRequest (Some "80")
    (Return (JDict [("singer", JStr "Adele"); ("num_videos", JInt 10);
                    ("duration", JInt 30); ("email", JStr "fan@example.org")])).

(** A request whose integer fields are strings. *)
Definition string_request : request :=
  mkRequest (Some "90")
    (Return (JDict [("singer", JStr " Adele "); ("num_videos", JStr "11");
                    ("duration", JStr " +2_1"); ("email", JStr "fan@example.org")])).

(** The world after the acquisition stage of [X0]. *)
Definition w_fetched : World :=
  snd (download_and_convert X0 "Adele" 11 tmp w0).

End Sample.

(** ** Frame properties of the stages

    A computation is [calm] when it leaves the process environment
    alone and adds to the trace only calls other than a removal. Every
    stage is calm; the removal of the workspace is the one call that is
    not. *)

Definition is_rmtree (ev : event) : bool :=
  match ev with EvRmtree _ _ => true | _ => false end.

Definition no_rmtree (evs : list event) : bool :=
  forallb (fun ev => negb (is_rmtree ev)) evs.

(** The number of removals of [p] attempted in a trace. *)
Definition removal_attempts (p : path) (evs : list event) : nat :=
  List.length (filter (fun ev => match ev with
                                 | EvRmtree q _ => if path_eq_dec q p then true else false
                                 | _ => false
                                 end) evs).

Definition calm {A} (m : M A) : Prop :=
  forall w r w', m w = (r, w') ->
    environ w' = environ w /\
    exists evs, trace w' = (trace w ++ evs)%list /\ no_rmtree evs = true.

(** The same outside, except for what [shutil.rmtree] answers. *)
Definition with_rmtree (failure : path -> option exn) (X : Externals) : Externals :=
  mkExternals (ext_mkdtemp X) (ext_extract_info X) (ext_listdir_order X)
    (ext_export X) (ext_zip X) (ext_post X) failure.



(** The property of the failure message that does not hold in general:
    whenever the acquisition fails, its message contains the singer. *)
Definition failure_names_search_term : Prop :=
  forall X singer n temp_dir w e w',
    download_and_convert X singer n temp_dir w = (Raise e, w') ->
    Py.contains singer (exn_msg e) = true.

(** ** Processed clips

    A processed clip: the ordinal in its file name, the file, and the
    waveform written there. *)
Record clip := mkClip {
  clip_ordinal : Z;
  clip_path : path;
  clip_audio : audio
}.

(** The clip that one turn of the trimming loop makes from the listing
    entry [(idx, file)], when the source decodes and the export works. *)
Definition clip_of (X : Externals) (downloads_dir trimmed_dir : path) (duration : Z)
    (files : list (path * file)) (item : Z * string) : option clip :=
  match fs_read (path_join downloads_dir (snd item)) files with
  | Some (Mp3 a) =>
      let output_path := path_join trimmed_dir (trimmed_name (fst item)) in
      match ext_export X output_path with
      | None => Some (mkClip (fst item) output_path (slice_to a (duration * 1000)))
      | Some _ => None
      end
  | _ => None
  end.

Fixpoint clips (X : Externals) (downloads_dir trimmed_dir : path) (duration : Z)
    (files : list (path * file)) (items : list (Z * string)) : list clip :=
  match items with
  | [] => []
  | item :: rest =>
      match clip_of X downloads_dir trimmed_dir duration files item with
      | Some c => c :: clips X downloads_dir trimmed_dir duration files rest
      | None => clips X downloads_dir trimmed_dir duration files rest
      end
  end.

Definition write_clip (files : list (path * file)) (c : clip) : list (path * file) :=
  fs_write (clip_path c) (Mp3 (clip_audio c)) files.

(** The [.mp3] entries of a directory, as [os.listdir] enumerates them. *)
Definition listed_mp3 (X : Externals) (dir : path) (w : World) : list string :=
  filter (Py.endswith ".mp3") (ext_listdir_order X (fs_names dir (fs w))).

(** The waveform of the source [name], empty when it does not decode,
    and its length in milliseconds. *)
Definition source_audio (files : list (path * file)) (dir : path) (name : string)
  : audio :=
  match fs_read (path_join dir name) files with
  | Some (Mp3 a) => a
  | _ => []
  end.

Definition source_ms (files : list (path * file)) (dir : path) (name : string) : Z :=
  Z.of_nat (List.length (source_audio files dir name)).

(** The files that the provider leaves in [dir], written in the order
    they were fetched. *)
Definition fetch_into (dir : path) (fetched : list (string * file))
    (files : list (path * file)) : list (path * file) :=
  fold_left (fun acc nf => fs_write (path_join dir (fst nf)) (snd nf) acc) fetched files.

Definition sum_Z (l : list Z) : Z := fold_right Z.add 0 l.

(** The ordinals 1, 2, ..., k. *)
Definition first_ordinals (k : nat) : list Z := map Z.of_nat (seq 1 k).

(** The property of the ordinals that does not hold in general: the
    files that the trimming loop produces are numbered 1, 2, ... without
    a gap. *)
Definition ordinals_consecutive : Prop :=
  forall X downloads_dir trimmed_dir duration names w trimmed_files w',
    trim_loop X downloads_dir trimmed_dir duration (enumerate names 1) [] w
      = (Return trimmed_files, w') ->
    trimmed_files =
      map (fun i => path_join trimmed_dir (trimmed_name i))
          (first_ordinals (List.length trimmed_files)).


(** ** The time-out hint and the cause of a failure

    [hint_follows indicates]: the hint replaces the error of a failed
    stage exactly when [indicates] holds of its message. The property
    does not hold when [indicates] goes by the cause of the failure. *)
Definition hint_follows (indicates : string -> bool) : Prop :=
  forall X singer n d email w temp_dir e w1,
    ext_mkdtemp X = Return temp_dir ->
    run_stages X singer n d email temp_dir (log (EvMkdtemp (Return temp_dir)) w)
      = (Raise e, w1) ->
    (indicates (exn_msg e) = true ->
     fst (create_mashup X singer n d email w) = Raise timeout_hint) /\
    (indicates (exn_msg e) = false ->
     fst (create_mashup X singer n d email w) = Raise e).

(** A message that speaks of a time-based cause: a timeout, an operation
    that timed out, or a deadline. *)
Definition speaks_of_time (msg : string) : bool :=
  let m := Py.lower msg in
  Py.contains "timeout" m || Py.contains "timed out" m || Py.contains "deadline" m.

(** ** The language of a regular expression *)

Inductive matches : Re.regex -> string -> Prop :=
| MEps : matches Re.Eps ""
| MClass p c : p c = true -> matches (Re.Class p) (String c "")
| MSeq r1 r2 s1 s2 :
    matches r1 s1 -> matches r2 s2 -> matches (Re.Seq r1 r2) (s1 ++ s2)
| MAltL r1 r2 s : matches r1 s -> matches (Re.Alt r1 r2) s
| MAltR r1 r2 s : matches r2 s -> matches (Re.Alt r1 r2) s
| MStarNil r : matches (Re.Star r) ""
| MStarApp r s1 s2 :
    matches r s1 -> matches (Re.Star r) s2 -> matches (Re.Star r) (s1 ++ s2).

(** Every character of [s] is in the class [p]. *)
Fixpoint all_chars (p : ascii -> bool) (s : string) : bool :=
  match s with
  | EmptyString => true
  | String c r => p c && all_chars p r
  end.

(** An address as the pattern of [validate_email] reads it: a local
    part, [@], a domain, a dot and a top-level name of two letters or
    more. *)
Definition email_shape (s : string) : Prop :=
  exists loc dom tld,
    s = loc ++ "@" ++ dom ++ "." ++ tld /\
    loc <> "" /\ all_chars email_local_char loc = true /\
    dom <> "" /\ all_chars email_domain_char dom = true /\
    (2 <= String.length tld)%nat /\ all_chars Py.is_alpha tld = true.

Definition is_str (v : json) : bool :=
  match v with JStr _ => true | _ => false end.

(** The fields of a body for which [validate_inputs] raises instead of
    reporting: a singer or an address that is not a string, a count or
    a duration that is an infinite float. *)
Definition field_raises (d : list (string * json)) : Prop :=
  (exists v, assoc "singer" d = Some v /\ is_str v = false) \/
  assoc "num_videos" d = Some (JFloat FInf) \/
  assoc "duration" d = Some (JFloat FInf) \/
  (exists v, assoc "email" d = Some v /\ is_str v = false).

(** The answer to a request that has no field at all. *)
Definition all_required : response :=
  mkResponse 400
    [("success", JBool false);
     ("error", JStr ("Singer name is required; Number of videos is required; "
                     ++ "Duration is required; Valid email address is required"))].

(** An ASCII character that is not white space. *)
Definition not_space (c : ascii) : bool :=
  (nat_of_ascii c <? 128)%nat && negb (Py.is_space c).

(** ** Relations between the worlds before and after a computation *)

(** Every run of [m] takes a world to one that [R] relates to it. *)
Definition preserves (R : World -> World -> Prop) {A} (m : M A) : Prop :=
  forall w r w', m w = (r, w') -> R w w'.

Definition same_trace (w w' : World) : Prop := trace w' = trace w.

(** The files that are not under [dir] are the same. *)
Definition same_outside (dir : path) (w w' : World) : Prop :=
  forall p, is_prefix dir p = false -> fs_read p (fs w') = fs_read p (fs w).

(** The files directly in [dir] are the same. *)
Definition same_inside (dir : path) (w w' : World) : Prop :=
  forall name, fs_read (path_join dir name) (fs w') = fs_read (path_join dir name) (fs w).

(** The search that [download_and_convert] asks for. *)
Definition search_event (singer : string) (num_videos : Z) (temp_dir : path) : event :=
  EvExtractInfo ("ytsearch" ++ Py.str_of_int num_videos ++ ":" ++ singer)
    num_videos (path_join temp_dir "downloads").

(** The request that [send_email] makes with a key and an archive. *)
Definition post_event (key recipient singer : string) (content : file) : event :=
  EvPost resend_url ("Bearer " ++ key) (make_email_data recipient singer content).

(** The world in which [trim_and_merge] starts within a run. *)
Definition after_download (X : Externals) (singer : string) (num_videos : Z)
    (temp_dir : path) (w : World) : World :=
  snd (download_and_convert X singer num_videos temp_dir
         (log (EvMkdtemp (Return temp_dir)) w)).

(** The clips of a run. *)
Definition run_clips (X : Externals) (singer : string) (num_videos duration : Z)
    (temp_dir : path) (w : World) : list clip :=
  let w1 := after_download X singer num_videos temp_dir w in
  clips X (path_join temp_dir "downloads") (path_join temp_dir "trimmed") duration
    (fs w1) (enumerate (listed_mp3 X (path_join temp_dir "downloads") w1) 1).

(** * Properties *)

Example validate_inputs_ok :
  validate_inputs (JDict [("singer", JStr "Adele"); ("num_videos", JInt 11);
                          ("duration", JStr " 2_1 "); ("email", JStr "a.b@c-d.org")])
  = Return [].
Proof. vm_compute. reflexivity. Qed.

Example validate_inputs_bad :
  validate_inputs (JDict [("singer", JStr "  "); ("num_videos", JInt 10);
                          ("duration", JStr "x"); ("email", JStr "a@b.c")])
  = Return ["Singer name is required"; "Number of videos must be greater than 10";
            "Duration must be a valid integer"; "Valid email address is required"].
Proof. vm_compute. reflexivity. Qed.

Create HintDb calm.

Lemma calm_ret {A} (a : A) : calm (ret a).
Proof.
  intros w r w' H. inversion H; subst. split; [reflexivity|].
  exists []. now rewrite app_nil_r.
Qed.

Lemma calm_raise {A} (e : exn) : calm (@raise A e).
Proof.
  intros w r w' H. inversion H; subst. split; [reflexivity|].
  exists []. now rewrite app_nil_r.
Qed.

Lemma calm_lift {A} (r : result A) : calm (lift r).
Proof.
  intros w r' w' H. inversion H; subst. split; [reflexivity|].
  exists []. now rewrite app_nil_r.
Qed.

Lemma calm_seq {A} (m : M A) w r w' w'' evs :
  calm m -> m w' = (r, w'') ->
  environ w' = environ w -> trace w' = (trace w ++ evs)%list -> no_rmtree evs = true ->
  environ w'' = environ w /\
  exists evs', trace w'' = (trace w ++ evs')%list /\ no_rmtree evs' = true.
Proof.
  intros Hm Hrun He Ht Hn. destruct (Hm _ _ _ Hrun) as [He' [evs' [Ht' Hn']]].
  split; [congruence|]. exists (evs ++ evs')%list. split.
  - rewrite Ht', Ht, app_assoc. reflexivity.
  - unfold no_rmtree in *. rewrite forallb_app, Hn, Hn'. reflexivity.
Qed.

Lemma calm_bind {A B} (m : M A) (k : A -> M B) :
  calm m -> (forall a, calm (k a)) -> calm (bind m k).
Proof.
  intros Hm Hk w r w' H. unfold bind in H.
  destruct (m w) as [[a|e] w1] eqn:E; destruct (Hm _ _ _ E) as [He [evs [Ht Hn]]].
  - exact (calm_seq (k a) w r w1 w' evs (Hk a) H He Ht Hn).
  - inversion H; subst. eauto.
Qed.

Lemma calm_try_except {A} (m : M A) (h : exn -> M A) :
  calm m -> (forall e, calm (h e)) -> calm (try_except m h).
Proof.
  intros Hm Hh w r w' H. unfold try_except in H.
  destruct (m w) as [[a|e] w1] eqn:E; destruct (Hm _ _ _ E) as [He [evs [Ht Hn]]].
  - inversion H; subst. eauto.
  - exact (calm_seq (h e) w r w1 w' evs (Hh e) H He Ht Hn).
Qed.

Lemma calm_step {A} (m : M A) :
  (forall w, environ (snd (m w)) = environ w /\
             exists evs, trace (snd (m w)) = (trace w ++ evs)%list /\ no_rmtree evs = true) ->
  calm m.
Proof. intros H w r w' E. specialize (H w). rewrite E in H. exact H. Qed.

Lemma calm_makedirs p : calm (makedirs p).
Proof. apply calm_ret. Qed.

Lemma calm_listdir X p : calm (listdir X p).
Proof.
  apply calm_step; intros w; simpl; split; try reflexivity.
  exists []; rewrite app_nil_r; split; reflexivity.
Qed.

Lemma calm_read_file p : calm (read_file p).
Proof.
  apply calm_step; intros w; unfold read_file.
  destruct (fs_read p (fs w)); simpl; split; try reflexivity;
    exists []; rewrite app_nil_r; split; reflexivity.
Qed.

Lemma calm_write_file p f : calm (write_file p f).
Proof.
  apply calm_step; intros w; simpl; split; try reflexivity.
  exists []; rewrite app_nil_r; split; reflexivity.
Qed.

Lemma calm_environ_get k : calm (environ_get k).
Proof.
  apply calm_step; intros w; simpl; split; try reflexivity.
  exists []; rewrite app_nil_r; split; reflexivity.
Qed.

Lemma calm_print s : calm (print s).
Proof.
  apply calm_step; intros w; simpl; split; try reflexivity.
  exists []; rewrite app_nil_r; split; reflexivity.
Qed.

Lemma calm_extract_info X q n d : calm (extract_info X q n d).
Proof.
  apply calm_step; intros w; unfold extract_info.
  destruct (ext_extract_info X q n) as [files r]; simpl; split; try reflexivity.
  eexists; split; reflexivity.
Qed.

Lemma calm_requests_post X u a p : calm (requests_post X u a p).
Proof.
  apply calm_step; intros w; simpl; split; try reflexivity.
  eexists; split; reflexivity.
Qed.

#[global] Hint Resolve calm_ret calm_raise calm_lift calm_bind calm_try_except
  calm_makedirs calm_listdir calm_read_file calm_write_file calm_environ_get
  calm_print calm_extract_info calm_requests_post : calm.

(** Calmness of a body written with [match] and [if]: split the
    scrutinee, then use the lemmas of the primitives. *)
Ltac calm_auto :=
  repeat first
    [ progress (intros)
    | solve [auto with calm]
    | apply calm_bind | apply calm_try_except
    | match goal with
      | |- calm (match ?x with _ => _ end) => destruct x
      | |- calm (if ?b then _ else _) => destruct b
      end ].

Lemma calm_from_mp3 p : calm (from_mp3 p).
Proof. unfold from_mp3. calm_auto. Qed.

Lemma calm_export X a p : calm (export X a p).
Proof. unfold export. calm_auto. Qed.

#[global] Hint Resolve calm_from_mp3 calm_export : calm.

Lemma calm_download_and_convert X singer n t : calm (download_and_convert X singer n t).
Proof. unfold download_and_convert. calm_auto. Qed.

Lemma calm_trim_loop X dd td dur items acc : calm (trim_loop X dd td dur items acc).
Proof.
  revert acc. induction items as [|[idx file] rest IH]; intros acc; simpl.
  - auto with calm.
  - apply calm_bind; [unfold trim_one; calm_auto | intros; apply IH].
Qed.

Lemma calm_merge_loop files acc : calm (merge_loop files acc).
Proof.
  revert acc. induction files as [|f rest IH]; intros acc; simpl.
  - auto with calm.
  - apply calm_bind; [auto with calm | intros; apply IH].
Qed.

#[global] Hint Resolve calm_download_and_convert calm_trim_loop calm_merge_loop : calm.

Lemma calm_trim_and_merge X dd dur t : calm (trim_and_merge X dd dur t).
Proof. unfold trim_and_merge. calm_auto. Qed.

Lemma calm_create_zip X f t : calm (create_zip X f t).
Proof. unfold create_zip. calm_auto. Qed.

Lemma calm_send_email X z r s : calm (send_email X z r s).
Proof. unfold send_email. calm_auto. Qed.

Lemma calm_classify {A} e : calm (@classify A e).
Proof. unfold classify. calm_auto. Qed.

#[global] Hint Resolve calm_trim_and_merge calm_create_zip calm_send_email
  calm_classify : calm.

Lemma calm_run_stages X singer n d email t : calm (run_stages X singer n d email t).
Proof. unfold run_stages. calm_auto. Qed.

#[global] Hint Resolve calm_run_stages : calm.

(** ** The orchestrator *)

Lemma removal_attempts_app p evs1 evs2 :
  removal_attempts p (evs1 ++ evs2) =
  (removal_attempts p evs1 + removal_attempts p evs2)%nat.
Proof. unfold removal_attempts. now rewrite filter_app, length_app. Qed.

Lemma removal_attempts_calm p evs :
  no_rmtree evs = true -> removal_attempts p evs = 0%nat.
Proof.
  unfold no_rmtree, removal_attempts. induction evs as [|ev evs IH]; simpl; intros H.
  - reflexivity.
  - apply andb_prop in H. destruct H as [H1 H2].
    destruct ev; simpl in *; try discriminate; auto.
Qed.

(** The [finally] clause never raises, and makes one removal call. *)
Lemma cleanup_run X temp_dir w :
  exists w', cleanup X temp_dir w = (Return tt, w') /\
             environ w' = environ w /\
             trace w' = (trace w ++ [EvRmtree temp_dir (ext_rmtree X temp_dir)])%list.
Proof.
  unfold cleanup, try_except, rmtree.
  destruct (ext_rmtree X temp_dir) as [e|]; eexists; repeat split.
Qed.

(** [create_mashup] is the classified outcome of the stages, followed by
    the cleanup. *)
Lemma create_mashup_run X singer n d email w temp_dir :
  ext_mkdtemp X = Return temp_dir ->
  forall r w1,
  try_except (run_stages X singer n d email temp_dir) classify
             (log (EvMkdtemp (Return temp_dir)) w) = (r, w1) ->
  exists w2, create_mashup X singer n d email w = (r, w2) /\
             environ w2 = environ w1 /\
             trace w2 = (trace w1 ++ [EvRmtree temp_dir (ext_rmtree X temp_dir)])%list.
Proof.
  intros Hmk r w1 Hrun. unfold create_mashup, bind, mkdtemp, try_finally.
  rewrite Hmk, Hrun.
  destruct (cleanup_run X temp_dir w1) as [w2 [Hc [He Ht]]].
  rewrite Hc. exists w2. auto.
Qed.

Lemma create_mashup_no_workspace X singer n d email w e :
  ext_mkdtemp X = Raise e ->
  create_mashup X singer n d email w = (Raise e, log (EvMkdtemp (Raise e)) w).
Proof. intros H. unfold create_mashup, bind, mkdtemp. now rewrite H. Qed.

Lemma run_stages_with_rmtree failure X singer n d email temp_dir :
  run_stages (with_rmtree failure X) singer n d email temp_dir =
  run_stages X singer n d email temp_dir.
Proof. reflexivity. Qed.

(** C1. Once the workspace is made, every run of [create_mashup] ends
    with exactly one attempt to remove it, made after all the stage
    calls, whatever the stages did; the outcome of the run is the
    (classified) outcome of the stages, and does not change when the
    removal fails. *)
Theorem create_mashup_removes_workspace_once X singer n d email w temp_dir :
  ext_mkdtemp X = Return temp_dir ->
  let run := create_mashup X singer n d email w in
  (exists evs,
     trace (snd run) =
       (trace w ++ [EvMkdtemp (Return temp_dir)] ++ evs ++
        [EvRmtree temp_dir (ext_rmtree X temp_dir)])%list /\
     no_rmtree evs = true /\
     removal_attempts temp_dir
       ([EvMkdtemp (Return temp_dir)] ++ evs ++
        [EvRmtree temp_dir (ext_rmtree X temp_dir)]) = 1%nat) /\
  fst run = fst (try_except (run_stages X singer n d email temp_dir) classify
                   (log (EvMkdtemp (Return temp_dir)) w)) /\
  forall failure,
    fst (create_mashup (with_rmtree failure X) singer n d email w) = fst run.
Proof.
  intros Hmk run. subst run.
  destruct (try_except (run_stages X singer n d email temp_dir) classify
              (log (EvMkdtemp (Return temp_dir)) w)) as [r w1] eqn:Hrun.
  assert (Hcalm : calm (try_except (run_stages X singer n d email temp_dir)
                          (@classify bool))) by auto with calm.
  destruct (Hcalm _ _ _ Hrun) as [_ [evs [Ht Hn]]].
  destruct (create_mashup_run X singer n d email w temp_dir Hmk r w1 Hrun)
    as [w2 [Hc [_ Ht2]]].
  rewrite Hc. simpl fst; simpl snd. split; [|split].
  - exists evs. split; [|split].
    + rewrite Ht2, Ht. simpl. rewrite <- !app_assoc. reflexivity.
    + exact Hn.
    + rewrite !removal_attempts_app, (removal_attempts_calm _ evs Hn).
      unfold removal_attempts. simpl.
      destruct (path_eq_dec temp_dir temp_dir); [reflexivity|congruence].
  - reflexivity.
  - intros failure.
    assert (Hmk' : ext_mkdtemp (with_rmtree failure X) = Return temp_dir) by exact Hmk.
    destruct (create_mashup_run (with_rmtree failure X) singer n d email w temp_dir
                Hmk' r w1) as [w3 [Hc3 _]].
    + rewrite run_stages_with_rmtree. exact Hrun.
    + rewrite Hc3. reflexivity.
Qed.

Lemma create_mashup_removes_workspace_once_witness :
  ext_mkdtemp Sample.X_slow = Return Sample.tmp /\
  removal_attempts Sample.tmp
    (trace (snd (create_mashup Sample.X_slow "Adele" 11 21 "fan@example.org" Sample.w0)))
    = 1%nat /\
  fst (create_mashup (with_rmtree (fun _ => Some (mkExn "PermissionError" "denied"))
                        Sample.X_slow) "Adele" 11 21 "fan@example.org" Sample.w0)
  = fst (create_mashup Sample.X_slow "Adele" 11 21 "fan@example.org" Sample.w0).
Proof.
  destruct (create_mashup_removes_workspace_once Sample.X_slow "Adele" 11 21
              "fan@example.org" Sample.w0 Sample.tmp eq_refl)
    as [[evs [Ht [_ Hc]]] [_ Hf]].
  split; [reflexivity|]. split.
  - rewrite Ht. exact Hc.
  - apply Hf.
Defined.

Lemma prefix_app_l a b s : String.prefix (a ++ b) s = true -> String.prefix a s = true.
Proof.
  revert s. induction a as [|c a IH]; intros s.
  - destruct s; reflexivity.
  - destruct s as [|c' s]; simpl; [discriminate|].
    destruct (ascii_dec c c'); [apply IH | discriminate].
Qed.

Lemma contains_app_l a b s : Py.contains (a ++ b) s = true -> Py.contains a s = true.
Proof.
  induction s as [|c s IH]; cbn [Py.contains]; intros H.
  - rewrite orb_false_r in *. now apply prefix_app_l in H.
  - apply orb_prop in H. destruct H as [H|H].
    + apply prefix_app_l in H. now rewrite H.
    + rewrite (IH H). apply orb_true_r.
Qed.

Lemma looks_time_based_one msg :
  looks_time_based msg = Py.contains "time" (Py.lower msg).
Proof.
  unfold looks_time_based.
  destruct (Py.contains "timeout" (Py.lower msg)) eqn:E; [|reflexivity].
  symmetry. apply (contains_app_l "time" "out"). exact E.
Qed.




(** Whatever reading of "indicates a time-based cause" one takes, if it
    counts a connection that ran into its deadline as time-based, or
    does not count a singer who could not be found, the hint does not
    follow it. *)
Lemma hint_follows_no_cause (indicates : string -> bool) :
  indicates "Download failed: Connection deadline exceeded" = true \/
  indicates "Download failed: Could not find videos for 'Sometimes'" = false ->
  ~ hint_follows indicates.
Proof.
  intros [Hd|Hs] H.
  - destruct (H Sample.X_deadline "Adele" 11 21 "fan@example.org" Sample.w0 Sample.tmp
                (Exception "Download failed: Connection deadline exceeded")
                (snd (run_stages Sample.X_deadline "Adele" 11 21 "fan@example.org"
                        Sample.tmp (log (EvMkdtemp (Return Sample.tmp)) Sample.w0)))
                eq_refl eq_refl) as [H1 _].
    specialize (H1 Hd). vm_compute in H1. discriminate H1.
  - destruct (H Sample.X_none "Sometimes" 11 21 "fan@example.org" Sample.w0 Sample.tmp
                (Exception "Download failed: Could not find videos for 'Sometimes'")
                (snd (run_stages Sample.X_none "Sometimes" 11 21 "fan@example.org"
                        Sample.tmp (log (EvMkdtemp (Return Sample.tmp)) Sample.w0)))
                eq_refl eq_refl) as [_ H2].
    specialize (H2 Hs). vm_compute in H2. discriminate H2.
Qed.


Example deadline_keeps_its_error :
  speaks_of_time "Download failed: Connection deadline exceeded" = true /\
  fst (create_mashup Sample.X_deadline "Adele" 11 21 "fan@example.org" Sample.w0)
    = Raise (Exception "Download failed: Connection deadline exceeded").
Proof. split; vm_compute; reflexivity. Qed.

(** The test looks for the letters, not for the cause: a failure to
    find a singer whose name contains "time" gets the hint as well. *)
Example timeout_hint_on_a_name :
  fst (create_mashup Sample.X_none "Sometimes" 11 21 "fan@example.org" Sample.w0)
    = Raise timeout_hint.
Proof. vm_compute. reflexivity. Qed.






(** ** Delivery *)

Lemma prefix_append s t : String.prefix s (s ++ t) = true.
Proof.
  induction s as [|c s IH]; simpl.
  - destruct t; reflexivity.
  - destruct (ascii_dec c c); [exact IH | congruence].
Qed.

Lemma contains_prefix s t : String.prefix s t = true -> Py.contains s t = true.
Proof. intros H. destruct t; simpl in *; rewrite H; reflexivity. Qed.

Lemma contains_append pre s post : Py.contains s (pre ++ s ++ post) = true.
Proof.
  induction pre as [|c pre IH]; simpl.
  - apply contains_prefix, prefix_append.
  - rewrite IH. apply orb_true_r.
Qed.

Lemma contains_suffix pre s : Py.contains s (pre ++ s) = true.
Proof.
  replace (pre ++ s) with (pre ++ s ++ "").
  - apply contains_append.
  - f_equal. induction s; simpl; congruence.
Qed.

(** What [send_email] does once the credential and the archive are there. *)
Lemma send_email_posts X zip_file recipient singer w key content :
  assoc "RESEND_API_KEY" (environ w) = Some key -> key <> "" ->
  fs_read zip_file (fs w) = Some content ->
  fst (send_email X zip_file recipient singer w) =
  match ext_post X resend_url ("Bearer " ++ key)
          (make_email_data recipient singer content) with
  | Return (code, text) =>
      if code =? 200 then Return true
      else Raise (delivery_error ("Resend API error: " ++ text))
  | Raise e => Raise (delivery_error (exn_msg e))
  end.
Proof.
  intros Hkey Hne Hzip.
  unfold send_email, bind, environ_get. rewrite Hkey.
  destruct key as [|c key]; [congruence|].
  unfold read_file. rewrite Hzip.
  unfold try_except, bind, requests_post.
  destruct (ext_post X resend_url _ _) as [[code text]|e]; simpl.
  - destruct (code =? 200); reflexivity.
  - reflexivity.
Qed.

(** C8. [send_email] returns [True] exactly when the provider is called
    and answers with status 200. When it answers with another status,
    or the call raises, [send_email] fails with a delivery error whose
    message contains the provider's body text, or the text of the
    transport error. *)
Theorem send_email_outcome X zip_file recipient singer w :
  (fst (send_email X zip_file recipient singer w) = Return true <->
   exists key content text,
     assoc "RESEND_API_KEY" (environ w) = Some key /\ key <> "" /\
     fs_read zip_file (fs w) = Some content /\
     ext_post X resend_url ("Bearer " ++ key)
       (make_email_data recipient singer content) = Return (200, text)) /\
  (forall key content,
     assoc "RESEND_API_KEY" (environ w) = Some key -> key <> "" ->
     fs_read zip_file (fs w) = Some content ->
     (forall code text,
        ext_post X resend_url ("Bearer " ++ key)
          (make_email_data recipient singer content) = Return (code, text) ->
        code <> 200 ->
        exists msg,
          fst (send_email X zip_file recipient singer w) = Raise (delivery_error msg) /\
          Py.contains text (exn_msg (delivery_error msg)) = true) /\
     (forall e,
        ext_post X resend_url ("Bearer " ++ key)
          (make_email_data recipient singer content) = Raise e ->
        exists msg,
          fst (send_email X zip_file recipient singer w) = Raise (delivery_error msg) /\
          Py.contains (exn_msg e) (exn_msg (delivery_error msg)) = true)).
Proof.
  split.
  - split.
    + intros Hok. unfold send_email, bind, environ_get in Hok.
      destruct (assoc "RESEND_API_KEY" (environ w)) as [key|] eqn:Hkey;
        [|discriminate Hok].
      destruct key as [|c key]; [discriminate Hok|].
      unfold read_file in Hok.
      destruct (fs_read zip_file (fs w)) as [content|] eqn:Hzip; [|discriminate Hok].
      unfold try_except, bind, requests_post in Hok.
      destruct (ext_post X resend_url ("Bearer " ++ String c key)
                  (make_email_data recipient singer content))
        as [[code text]|e] eqn:Hpost; simpl in Hok; [|discriminate Hok].
      destruct (code =? 200) eqn:Hcode; [|discriminate Hok].
      apply Z.eqb_eq in Hcode. subst code.
      exists (String c key), content, text. repeat split; auto. discriminate.
    + intros [key [content [text [Hkey [Hne [Hzip Hpost]]]]]].
      rewrite (send_email_posts X _ _ _ _ key content Hkey Hne Hzip), Hpost.
      reflexivity.
  - intros key content Hkey Hne Hzip. split.
    + intros code text Hpost Hcode.
      exists ("Resend API error: " ++ text). split.
      * rewrite (send_email_posts X _ _ _ _ key content Hkey Hne Hzip), Hpost.
        apply Z.eqb_neq in Hcode. now rewrite Hcode.
      * apply (contains_suffix "Failed to send email: Resend API error: " text).
    + intros e Hpost. exists (exn_msg e). split.
      * rewrite (send_email_posts X _ _ _ _ key content Hkey Hne Hzip), Hpost.
        reflexivity.
      * apply (contains_suffix "Failed to send email: " (exn_msg e)).
Qed.

Lemma send_email_outcome_witness :
  exists msg,
    fst (send_email Sample.X_refused (path_join Sample.tmp "mashup.zip")
           "fan@example.org" "Adele"
           (set_fs [(path_join Sample.tmp "mashup.zip", ZipFile [])] Sample.w0))
      = Raise (delivery_error msg) /\
    Py.contains "{'message': 'API key is invalid'}" (exn_msg (delivery_error msg)) = true.
Proof.
  apply (send_email_outcome Sample.X_refused (path_join Sample.tmp "mashup.zip")
           "fan@example.org" "Adele"
           (set_fs [(path_join Sample.tmp "mashup.zip", ZipFile [])] Sample.w0))
    with (key := "re_123") (content := ZipFile []) (code := 403).
  - reflexivity.
  - discriminate.
  - reflexivity.
  - reflexivity.
  - discriminate.
Defined.

(** ** Acquisition *)

Lemma download_and_convert_run X singer n temp_dir w :
  fst (download_and_convert X singer n temp_dir w) =
  match snd (ext_extract_info X ("ytsearch" ++ Py.str_of_int n ++ ":" ++ singer) n) with
  | Return true => Return (path_join temp_dir "downloads")
  | Return false =>
      Raise (Exception ("Download failed: Could not find videos for '" ++ singer ++ "'"))
  | Raise e => Raise (Exception ("Download failed: " ++ exn_msg e))
  end.
Proof.
  unfold download_and_convert, bind, makedirs, ret, try_except, extract_info.
  destruct (ext_extract_info X _ n) as [files [[|]|e]]; reflexivity.
Qed.

(** C6, as the program has it. The acquisition fails exactly when the
    provider returns nothing usable or raises. In the first case the
    message names the singer; in the second it is "Download failed: "
    followed by the provider's own text, whatever that text names. *)
Theorem download_and_convert_failure X singer n temp_dir w :
  let answer :=
    snd (ext_extract_info X ("ytsearch" ++ Py.str_of_int n ++ ":" ++ singer) n) in
  (is_return (fst (download_and_convert X singer n temp_dir w)) = false <->
   answer = Return false \/ exists e, answer = Raise e) /\
  (answer = Return false ->
   exists msg,
     fst (download_and_convert X singer n temp_dir w) = Raise (Exception msg) /\
     Py.contains singer msg = true) /\
  (forall e, answer = Raise e ->
     fst (download_and_convert X singer n temp_dir w)
       = Raise (Exception ("Download failed: " ++ exn_msg e))).
Proof.
  intros answer. subst answer. rewrite download_and_convert_run.
  destruct (snd (ext_extract_info X _ n)) as [[|]|e]; simpl.
  - split; [|split].
    + split; [discriminate|]. intros [H|[e H]]; discriminate H.
    + discriminate.
    + discriminate.
  - split; [|split].
    + split; auto.
    + intros _. eexists. split; [reflexivity|].
      apply (contains_append "Download failed: Could not find videos for '" singer "'").
    + discriminate.
  - split; [|split].
    + split; eauto.
    + discriminate.
    + intros e' H. inversion H; subst. reflexivity.
Qed.

Lemma download_and_convert_failure_witness :
  exists msg,
    fst (download_and_convert Sample.X_none "Sometimes" 11 Sample.tmp Sample.w0)
      = Raise (Exception msg) /\
    Py.contains "Sometimes" msg = true.
Proof.
  apply (download_and_convert_failure Sample.X_none "Sometimes" 11 Sample.tmp Sample.w0).
  reflexivity.
Defined.

(** C6, counterexample. The provider is unreachable while looking for
    "Adele": the message of the failure does not name her. *)
Lemma download_failure_omits_search_term : ~ failure_names_search_term.
Proof.
  intros H.
  specialize (H Sample.X_unreachable "Adele" 11 Sample.tmp Sample.w0
                (Exception "Download failed: Unable to connect: network is unreachable")
                (log (EvExtractInfo "ytsearch11:Adele" 11 (path_join Sample.tmp "downloads"))
                     Sample.w0)).
  vm_compute in H. specialize (H eq_refl). discriminate H.
Qed.

(** ** Validation and the handler *)

(** [int] does not skip the separators FS..US that [strip] removes; it
    reads a no-break space as white space and the digits of any script;
    it refuses more than 4300 digits. *)
Example int_of_str_separator :
  Py.int_of_str (String "028" "11") = None /\ Py.strip (String "028" "11") = "11".
Proof. split; vm_compute; reflexivity. Qed.

Example int_of_str_no_break_space :
  Py.int_of_str (String "194" (String "160" "11")) = Some 11.
Proof. vm_compute. reflexivity. Qed.

Example int_of_str_arabic_indic :
  Py.int_of_str (String "217" (String "161" (String "217" (String "162" ""))))
  = Some 12.
Proof. vm_compute. reflexivity. Qed.

Example int_of_str_digit_cap :
  Py.int_of_str (string_of_list_ascii (repeat "1"%char 4301)) = None /\
  is_return (py_int (JStr (string_of_list_ascii (repeat "1"%char 4300)))) = true.
Proof. split; vm_compute; reflexivity. Qed.

Example strip_no_break_space :
  Py.strip (String "194" (String "160" " ")) = "".
Proof. vm_compute. reflexivity. Qed.

Lemma getitem_dict data key v :
  getitem data key = Return v ->
  exists d, data = JDict d /\ assoc key d = Some v.
Proof.
  destruct data; simpl; try discriminate.
  destruct (assoc key d) eqn:E; [|discriminate].
  intros H; inversion H; subst. eauto.
Qed.

Lemma check_int_field_small v n bound too_small invalid :
  py_int v = Return n -> n <= bound ->
  check_int_field v bound too_small invalid = Return [too_small].
Proof.
  intros Hv Hn. unfold check_int_field. rewrite Hv.
  apply Z.leb_le in Hn. now rewrite Hn.
Qed.

Lemma check_int_field_large v n bound too_small invalid :
  py_int v = Return n -> bound < n ->
  check_int_field v bound too_small invalid = Return [].
Proof.
  intros Hv Hn. unfold check_int_field. rewrite Hv.
  apply Z.leb_gt in Hn. now rewrite Hn.
Qed.

(** A value of [num_videos] that is not above 10 is reported whenever
    validation returns. *)
Lemma validate_inputs_num_videos data v n errors :
  getitem data "num_videos" = Return v -> py_int v = Return n -> n <= 10 ->
  validate_inputs data = Return errors ->
  In "Number of videos must be greater than 10" errors.
Proof.
  intros Hget Hv Hn. destruct (getitem_dict _ _ _ Hget) as [d [-> Hd]].
  unfold validate_inputs.
  destruct (singer_missing (JDict d)) as [b|e]; simpl; [|discriminate].
  unfold num_videos_errors. simpl. rewrite Hd. simpl.
  rewrite (check_int_field_small _ _ _ _ _ Hv Hn). simpl.
  destruct (duration_errors (JDict d)) as [ed|e]; simpl; [|discriminate].
  destruct (email_invalid (JDict d)) as [be|e]; simpl; [|discriminate].
  intros H; inversion H; subst.
  destruct b, be; rewrite ?in_app_iff; simpl; tauto.
Qed.

Lemma validate_inputs_duration data v n errors :
  getitem data "duration" = Return v -> py_int v = Return n -> n <= 20 ->
  validate_inputs data = Return errors ->
  In "Duration must be greater than 20 seconds" errors.
Proof.
  intros Hget Hv Hn. destruct (getitem_dict _ _ _ Hget) as [d [-> Hd]].
  unfold validate_inputs.
  destruct (singer_missing (JDict d)) as [b|e]; simpl; [|discriminate].
  destruct (num_videos_errors (JDict d)) as [en|e]; simpl; [|discriminate].
  unfold duration_errors. simpl. rewrite Hd. simpl.
  rewrite (check_int_field_small _ _ _ _ _ Hv Hn). simpl.
  destruct (email_invalid (JDict d)) as [be|e]; simpl; [|discriminate].
  intros H; inversion H; subst.
  destruct b, be; rewrite ?in_app_iff; simpl; tauto.
Qed.

(** A request that fails validation is answered without a stage being
    run: the world is the one the request found. *)
Lemma do_POST_rejects X req w data :
  request_data req = Return data ->
  match validate_inputs data with
  | Return [] => True
  | Return errors =>
      do_POST X req w =
        (mkResponse 400 [("success", JBool false);
                         ("error", JStr (String.concat "; " errors))], w)
  | Raise e =>
      do_POST X req w =
        (mkResponse 500 [("success", JBool false); ("error", JStr (exn_msg e))], w)
  end.
Proof.
  intros Hdata. unfold do_POST, handle_post, bind, lift. rewrite Hdata.
  destruct (validate_inputs data) as [[|err errs]|e]; auto.
Qed.

(** C3. A request whose [num_videos] is not above 10, or whose
    [duration] is not above 20 (the bounds themselves included), is
    answered by the validation step: with status 400 and the message of
    the bound when [validate_inputs] returns, with status 500 when it
    raises. In both cases the world is left as it was: [create_mashup]
    is not called, not even to make the workspace. *)
Theorem boundary_values_rejected X req w data :
  request_data req = Return data ->
  ((exists v n, getitem data "num_videos" = Return v /\ py_int v = Return n /\ n <= 10) \/
   (exists v n, getitem data "duration" = Return v /\ py_int v = Return n /\ n <= 20)) ->
  snd (do_POST X req w) = w /\
  (status (fst (do_POST X req w)) = 400 \/ status (fst (do_POST X req w)) = 500) /\
  (forall errors, validate_inputs data = Return errors ->
     errors <> [] /\
     do_POST X req w =
       (mkResponse 400 [("success", JBool false);
                        ("error", JStr (String.concat "; " errors))], w)) /\
  (forall v, getitem data "num_videos" = Return v -> py_int v = Return 10 ->
     forall errors, validate_inputs data = Return errors ->
       In "Number of videos must be greater than 10" errors) /\
  (forall v, getitem data "duration" = Return v -> py_int v = Return 20 ->
     forall errors, validate_inputs data = Return errors ->
       In "Duration must be greater than 20 seconds" errors).
Proof.
  intros Hdata Hbound.
  assert (Hne : forall errors, validate_inputs data = Return errors -> errors <> []).
  { intros errors Hval ->.
    destruct Hbound as [[v [n [Hg [Hv Hn]]]]|[v [n [Hg [Hv Hn]]]]].
    - exact (validate_inputs_num_videos _ _ _ _ Hg Hv Hn Hval).
    - exact (validate_inputs_duration _ _ _ _ Hg Hv Hn Hval). }
  pose proof (do_POST_rejects X req w data Hdata) as Hpost.
  destruct (validate_inputs data) as [errors|e] eqn:Hval.
  - destruct errors as [|err errs]; [exfalso; now apply (Hne [])|].
    rewrite Hpost. simpl.
    split; [reflexivity|]. split; [now left|]. split; [|split].
    + intros errs' H'; inversion H'; subst. split; [discriminate|reflexivity].
    + intros v Hg Hv errs' H'.
      apply (validate_inputs_num_videos data v 10 errs' Hg Hv); [lia|].
      rewrite Hval. exact H'.
    + intros v Hg Hv errs' H'.
      apply (validate_inputs_duration data v 20 errs' Hg Hv); [lia|].
      rewrite Hval. exact H'.
  - rewrite Hpost. simpl.
    split; [reflexivity|]. split; [now right|]. split; [|split].
    + intros errs' H'. discriminate H'.
    + intros v _ _ errs' H'. discriminate H'.
    + intros v _ _ errs' H'. discriminate H'.
Qed.

Lemma boundary_values_rejected_witness :
  do_POST Sample.X0 Sample.boundary_request Sample.w0 =
    (mkResponse 400 [("success", JBool false);
                     ("error", JStr "Number of videos must be greater than 10")],
     Sample.w0).
Proof.
  destruct (boundary_values_rejected Sample.X0 Sample.boundary_request Sample.w0
              (JDict [("singer", JStr "Adele"); ("num_videos", JInt 10);
                      ("duration", JInt 30); ("email", JStr "fan@example.org")]))
    as [_ [_ [H _]]].
  - reflexivity.
  - left. exists (JInt 10), 10. repeat split. lia.
  - apply (H ["Number of videos must be greater than 10"]). reflexivity.
Defined.

(** C10. When [num_videos] and [duration] are strings that [int] parses
    to values above 10 and above 20, and the singer and the address are
    valid, validation reports nothing and the handler runs the pipeline
    on the parsed integers. *)
Theorem string_fields_accepted X req w d singer s_n s_d email n dur :
  request_data req = Return (JDict d) ->
  assoc "singer" d = Some (JStr singer) -> Py.strip singer <> "" ->
  assoc "num_videos" d = Some (JStr s_n) -> Py.int_of_str s_n = Some n -> 10 < n ->
  assoc "duration" d = Some (JStr s_d) -> Py.int_of_str s_d = Some dur -> 20 < dur ->
  assoc "email" d = Some (JStr email) -> Re.match_anchored email_pattern email = true ->
  validate_inputs (JDict d) = Return [] /\
  handle_post X req w =
    (create_mashup X (Py.strip singer) n dur (Py.strip email) ;;
     ret (mkResponse 200
            [("success", JBool true);
             ("message", JStr ("Mashup created and sent to " ++ Py.strip email))])) w.
Proof.
  intros Hdata Hs Hsne Hn Hnp Hnb Hd Hdp Hdb He Hem.
  assert (Hval : validate_inputs (JDict d) = Return []).
  { unfold validate_inputs, singer_missing, num_videos_errors, duration_errors,
      email_invalid. simpl. rewrite Hs, Hn, Hd, He. simpl.
    apply String.eqb_neq in Hsne. rewrite Hsne. simpl.
    rewrite (check_int_field_large (JStr s_n) n) by (simpl; now rewrite ?Hnp).
    rewrite (check_int_field_large (JStr s_d) dur) by (simpl; now rewrite ?Hdp).
    simpl. rewrite Hem. reflexivity. }
  split; [exact Hval|].
  unfold handle_post. unfold bind at 1, lift at 1. rewrite Hdata.
  unfold bind at 1, lift at 1. rewrite Hval.
  unfold bind, lift. simpl. rewrite Hs, Hn, Hd, He. simpl. rewrite Hnp, Hdp.
  reflexivity.
Qed.

Lemma string_fields_accepted_witness :
  validate_inputs (JDict [("singer", JStr " Adele "); ("num_videos", JStr "11");
                          ("duration", JStr " +2_1"); ("email", JStr "fan@example.org")])
    = Return [] /\
  handle_post Sample.X0 Sample.string_request Sample.w0 =
    (create_mashup Sample.X0 "Adele" 11 21 "fan@example.org" ;;
     ret (mkResponse 200
            [("success", JBool true);
             ("message", JStr "Mashup created and sent to fan@example.org")])) Sample.w0.
Proof.
  apply (string_fields_accepted Sample.X0 Sample.string_request Sample.w0
           [("singer", JStr " Adele "); ("num_videos", JStr "11");
            ("duration", JStr " +2_1"); ("email", JStr "fan@example.org")]
           " Adele " "11" " +2_1" "fan@example.org" 11 21);
    try reflexivity; try lia; try discriminate.
Defined.

(** ** The file system *)

Lemma fs_read_write_eq p f files : fs_read p (fs_write p f files) = Some f.
Proof.
  induction files as [|[q g] r IH]; simpl.
  - destruct (path_eq_dec p p); congruence.
  - destruct (path_eq_dec q p) as [->|Hne]; simpl.
    + destruct (path_eq_dec p p); congruence.
    + destruct (path_eq_dec q p); [contradiction|exact IH].
Qed.

Lemma fs_read_write_neq p q f files :
  p <> q -> fs_read p (fs_write q f files) = fs_read p files.
Proof.
  intros Hne. induction files as [|[q' g] r IH]; simpl.
  - destruct (path_eq_dec q p); congruence.
  - destruct (path_eq_dec q' q) as [->|Hq]; simpl.
    + destruct (path_eq_dec q p); congruence.
    + destruct (path_eq_dec q' p); [reflexivity|exact IH].
Qed.

Lemma path_join_inj p q a b : path_join p a = path_join q b -> p = q /\ a = b.
Proof. apply app_inj_tail. Qed.

(** ** Ordinals and file names *)

Lemma append_inv_tail s1 s2 t : s1 ++ t = s2 ++ t -> s1 = s2.
Proof.
  assert (Hlen : forall a b, String.length (a ++ b) = (String.length a + String.length b)%nat).
  { induction a; simpl; intros; [reflexivity | now rewrite IHa]. }
  revert s2. induction s1 as [|c s1 IH]; intros [|c2 s2] H; simpl in H.
  - reflexivity.
  - apply (f_equal String.length) in H. simpl in H. rewrite Hlen in H. lia.
  - apply (f_equal String.length) in H. simpl in H. rewrite Hlen in H. lia.
  - injection H as -> H. f_equal. now apply IH.
Qed.

Lemma str_of_int_inj i j : Py.str_of_int i = Py.str_of_int j -> i = j.
Proof.
  unfold Py.str_of_int. intros H.
  apply (f_equal NilEmpty.int_of_string) in H. rewrite !NilEmpty.isi in H.
  injection H as H. now apply DecimalZ.to_int_inj.
Qed.

Lemma trimmed_name_inj i j : trimmed_name i = trimmed_name j -> i = j.
Proof.
  unfold trimmed_name. intros H. simpl in H. injection H as H.
  apply append_inv_tail in H. now apply str_of_int_inj.
Qed.

(** ** The trimming loop *)

Section Trim.

Variable X : Externals.
Variables downloads_dir trimmed_dir : path.
Variable duration : Z.
Hypothesis separate : downloads_dir <> trimmed_dir.

Lemma clip_of_path files item c :
  clip_of X downloads_dir trimmed_dir duration files item = Some c ->
  clip_ordinal c = fst item /\
  clip_path c = path_join trimmed_dir (trimmed_name (fst item)).
Proof.
  unfold clip_of. destruct (fs_read _ files) as [[a| |]|]; try discriminate.
  destruct (ext_export X _); [discriminate|].
  intros H; inversion H; subst; simpl. auto.
Qed.

(** Writing a trimmed file does not change what the loop will read. *)
Lemma clip_of_write_frame files name f item :
  clip_of X downloads_dir trimmed_dir duration
    (fs_write (path_join trimmed_dir name) f files) item
  = clip_of X downloads_dir trimmed_dir duration files item.
Proof.
  unfold clip_of. rewrite fs_read_write_neq; [reflexivity|].
  intros H. apply path_join_inj in H. destruct H as [H _]. now apply separate.
Qed.

Lemma clips_write_frame files name f items :
  clips X downloads_dir trimmed_dir duration
    (fs_write (path_join trimmed_dir name) f files) items
  = clips X downloads_dir trimmed_dir duration files items.
Proof.
  induction items as [|item rest IH]; simpl; [reflexivity|].
  now rewrite clip_of_write_frame, IH.
Qed.

(** One turn of the loop: it returns, with the clip added when there is
    one. *)
Lemma trim_one_run idx file acc w :
  exists w',
    trim_one X downloads_dir trimmed_dir duration idx file acc w =
      (Return (acc ++ match clip_of X downloads_dir trimmed_dir duration (fs w) (idx, file) with
                      | Some c => [clip_path c]
                      | None => []
                      end)%list, w') /\
    fs w' = match clip_of X downloads_dir trimmed_dir duration (fs w) (idx, file) with
            | Some c => write_clip (fs w) c
            | None => fs w
            end.
Proof.
  unfold trim_one, try_except, bind, from_mp3, bind, read_file, clip_of. simpl.
  destruct (fs_read (path_join downloads_dir file) (fs w)) as [[a| |]|]; simpl;
    try (eexists; split; [rewrite app_nil_r; reflexivity | reflexivity]).
  unfold export.
  destruct (ext_export X (path_join trimmed_dir (trimmed_name idx))); simpl.
  - eexists; split; [rewrite app_nil_r; reflexivity | reflexivity].
  - eexists; split; reflexivity.
Qed.

(** The loop never raises. It returns the files of the clips, in the
    order of the listing, and has written each of them. *)
Lemma trim_loop_run items : forall acc w,
  exists w',
    trim_loop X downloads_dir trimmed_dir duration items acc w =
      (Return (acc ++ map clip_path
                 (clips X downloads_dir trimmed_dir duration (fs w) items))%list, w') /\
    fs w' = fold_left write_clip
              (clips X downloads_dir trimmed_dir duration (fs w) items) (fs w).
Proof.
  induction items as [|[idx file] rest IH]; intros acc w; simpl.
  - exists w. now rewrite app_nil_r.
  - destruct (trim_one_run idx file acc w) as [w1 [Hone Hfs1]].
    unfold bind at 1. rewrite Hone.
    destruct (clip_of X downloads_dir trimmed_dir duration (fs w) (idx, file))
      as [c|] eqn:Hc.
    + destruct (IH (acc ++ [clip_path c])%list w1) as [w' [Hloop Hfs]].
      destruct (clip_of_path _ _ _ Hc) as [_ Hp].
      assert (Hfr : clips X downloads_dir trimmed_dir duration (write_clip (fs w) c) rest
                    = clips X downloads_dir trimmed_dir duration (fs w) rest).
      { unfold write_clip. rewrite Hp. apply clips_write_frame. }
      exists w'. rewrite Hloop, Hfs, Hfs1, Hfr.
      simpl. rewrite <- app_assoc. simpl. split; reflexivity.
    + destruct (IH (acc ++ [])%list w1) as [w' [Hloop Hfs]].
      exists w'. rewrite Hloop, Hfs, Hfs1. rewrite app_nil_r. split; reflexivity.
Qed.

(** The clips of an enumerated listing: one for each entry that decodes
    and exports, numbered by the position of the entry. *)
Lemma In_clips files names : forall k c,
  In c (clips X downloads_dir trimmed_dir duration files (enumerate names k)) <->
  exists i name,
    nth_error names i = Some name /\
    clip_of X downloads_dir trimmed_dir duration files (k + Z.of_nat i, name) = Some c.
Proof.
  induction names as [|name names IH]; intros k c; simpl.
  - split; [tauto|]. intros [i [n [H _]]]. destruct i; discriminate H.
  - split.
    + intros H.
      assert (Hrest : In c (clips X downloads_dir trimmed_dir duration files
                              (enumerate names (k + 1))) ->
                      exists i name0, nth_error (name :: names) i = Some name0 /\
                        clip_of X downloads_dir trimmed_dir duration files
                          (k + Z.of_nat i, name0) = Some c).
      { intros Hin. apply IH in Hin. destruct Hin as [i [n [Hn Hc]]].
        exists (S i), n. split; [exact Hn|].
        replace (k + Z.of_nat (S i)) with (k + 1 + Z.of_nat i) by lia. exact Hc. }
      destruct (clip_of X downloads_dir trimmed_dir duration files (k, name))
        as [c0|] eqn:Hc0; [|now apply Hrest].
      destruct H as [->|H]; [|now apply Hrest].
      exists 0%nat, name. split; [reflexivity|].
      replace (k + Z.of_nat 0) with k by lia. exact Hc0.
    + intros [i [n [Hn Hc]]]. destruct i as [|i]; simpl in Hn.
      * injection Hn as ->. replace (k + Z.of_nat 0) with k in Hc by lia.
        rewrite Hc. now left.
      * assert (Hin : In c (clips X downloads_dir trimmed_dir duration files
                              (enumerate names (k + 1)))).
        { apply IH. exists i, n. split; [exact Hn|].
          replace (k + 1 + Z.of_nat i) with (k + Z.of_nat (S i)) by lia. exact Hc. }
        destruct (clip_of X downloads_dir trimmed_dir duration files (k, name));
          [now right | exact Hin].
Qed.

Lemma clips_ordinal_bound files names : forall k c,
  In c (clips X downloads_dir trimmed_dir duration files (enumerate names k)) ->
  k <= clip_ordinal c.
Proof.
  intros k c H. apply In_clips in H. destruct H as [i [n [_ Hc]]].
  apply clip_of_path in Hc. destruct Hc as [Ho _]. rewrite Ho. simpl. lia.
Qed.

(** The ordinals of the clips go up strictly. *)
Lemma clips_ordinals_sorted files names : forall k,
  StronglySorted Z.lt
    (map clip_ordinal (clips X downloads_dir trimmed_dir duration files (enumerate names k))).
Proof.
  induction names as [|name names IH]; intros k; simpl.
  - constructor.
  - destruct (clip_of X downloads_dir trimmed_dir duration files (k, name))
      as [c|] eqn:Hc; [|apply IH].
    simpl. constructor; [apply IH|].
    apply Forall_forall. intros o Ho. apply in_map_iff in Ho.
    destruct Ho as [c' [<- Hin]]. apply clips_ordinal_bound in Hin.
    apply clip_of_path in Hc. destruct Hc as [Hc _]. rewrite Hc. simpl. lia.
Qed.

Lemma clips_paths files names k c :
  In c (clips X downloads_dir trimmed_dir duration files (enumerate names k)) ->
  clip_path c = path_join trimmed_dir (trimmed_name (clip_ordinal c)).
Proof.
  intros H. apply In_clips in H. destruct H as [i [n [_ Hc]]].
  apply clip_of_path in Hc. destruct Hc as [-> ->]. reflexivity.
Qed.

Lemma clips_paths_NoDup files names : forall k,
  NoDup (map clip_path
           (clips X downloads_dir trimmed_dir duration files (enumerate names k))).
Proof.
  induction names as [|name names IH]; intros k; simpl.
  - constructor.
  - destruct (clip_of X downloads_dir trimmed_dir duration files (k, name))
      as [c|] eqn:Hc; [|apply IH].
    simpl. constructor; [|apply IH].
    intros Hin. apply in_map_iff in Hin. destruct Hin as [c' [Hp Hin]].
    pose proof (clips_ordinal_bound _ _ _ _ Hin) as Hb.
    rewrite (clips_paths _ _ _ _ Hin) in Hp.
    apply clip_of_path in Hc. destruct Hc as [Ho Hc]. rewrite Hc in Hp. simpl in Hp.
    apply path_join_inj in Hp. destruct Hp as [_ Hp].
    apply trimmed_name_inj in Hp. lia.
Qed.

End Trim.

(** ** Reading the clips back *)

Lemma fold_write_other cs : forall files p,
  ~ In p (map clip_path cs) ->
  fs_read p (fold_left write_clip cs files) = fs_read p files.
Proof.
  induction cs as [|c cs IH]; intros files p Hp; simpl; [reflexivity|].
  simpl in Hp. rewrite IH by tauto.
  unfold write_clip. apply fs_read_write_neq. intros ->. tauto.
Qed.

Lemma fold_write_read cs : forall files c,
  NoDup (map clip_path cs) -> In c cs ->
  fs_read (clip_path c) (fold_left write_clip cs files) = Some (Mp3 (clip_audio c)).
Proof.
  induction cs as [|c0 cs IH]; intros files c Hnd Hin; simpl in *; [contradiction|].
  inversion Hnd as [|? ? Hnotin Hnd']; subst.
  destruct Hin as [->|Hin].
  - rewrite fold_write_other by exact Hnotin.
    unfold write_clip. apply fs_read_write_eq.
  - now apply IH.
Qed.

Lemma merge_loop_run cs : forall acc w,
  (forall c, In c cs -> fs_read (clip_path c) (fs w) = Some (Mp3 (clip_audio c))) ->
  merge_loop (map clip_path cs) acc w =
    (Return (acc ++ List.concat (map clip_audio cs))%list, w).
Proof.
  induction cs as [|c cs IH]; intros acc w H; simpl.
  - now rewrite app_nil_r.
  - unfold bind at 1, from_mp3, bind, read_file.
    rewrite (H c) by now left. simpl.
    rewrite IH by (intros; apply H; now right).
    now rewrite app_assoc.
Qed.

Lemma enumerate_nil_inv {A} (l : list A) k : enumerate l k = [] -> l = [].
Proof. destruct l; [reflexivity|discriminate]. Qed.

(** [trim_and_merge], when at least one clip is made and the composite
    can be written: it returns, and the composite is the concatenation
    of the clips. *)
Lemma trim_and_merge_run X downloads_dir duration temp_dir w :
  downloads_dir <> path_join temp_dir "trimmed" ->
  let cs := clips X downloads_dir (path_join temp_dir "trimmed") duration (fs w)
              (enumerate (listed_mp3 X downloads_dir w) 1) in
  cs <> [] ->
  ext_export X (path_join temp_dir "mashup.mp3") = None ->
  exists w',
    trim_and_merge X downloads_dir duration temp_dir w
      = (Return (path_join temp_dir "mashup.mp3"), w') /\
    fs_read (path_join temp_dir "mashup.mp3") (fs w')
      = Some (Mp3 (List.concat (map clip_audio cs))).
Proof.
  intros Hsep cs Hcs Hexp.
  destruct (trim_loop_run X downloads_dir (path_join temp_dir "trimmed") duration Hsep
              (enumerate (listed_mp3 X downloads_dir w) 1) [] w) as [w1 [Hloop Hfs]].
  fold cs in Hloop, Hfs. simpl app in Hloop.
  assert (Hnd : NoDup (map clip_path cs)) by apply clips_paths_NoDup.
  assert (Hmp3 : enumerate (listed_mp3 X downloads_dir w) 1 <> []).
  { intros E. apply Hcs. unfold cs. rewrite E. reflexivity. }
  clearbody cs.
  assert (Hmerge : merge_loop (map clip_path cs) [] w1 =
                   (Return (List.concat (map clip_audio cs)), w1)).
  { apply (merge_loop_run cs [] w1). intros c Hin. rewrite Hfs.
    now apply fold_write_read. }
  unfold trim_and_merge, bind, makedirs, ret, listdir.
  change (filter (Py.endswith ".mp3")
            (ext_listdir_order X (fs_names downloads_dir (fs w))))
    with (listed_mp3 X downloads_dir w).
  destruct (listed_mp3 X downloads_dir w) as [|name names].
  { exfalso. now apply Hmp3. }
  rewrite Hloop. cbv beta iota.
  destruct cs as [|c0 cs0]; [congruence|].
  change (map clip_path (c0 :: cs0)) with (clip_path c0 :: map clip_path cs0) at 1.
  cbv beta iota. rewrite Hmerge. unfold export. rewrite Hexp. unfold write_file.
  eexists. split; [reflexivity|]. simpl. apply fs_read_write_eq.
Qed.

(** ** The order of the listing *)





(** ** Truncation *)

Lemma slice_to_firstn seg ms :
  0 <= ms -> slice_to seg ms = firstn (Z.to_nat ms) seg.
Proof.
  intros Hms. unfold slice_to.
  destruct (0 <=? ms) eqn:E; [|apply Z.leb_gt in E; lia].
  destruct (Z.le_gt_cases ms (Z.of_nat (List.length seg))) as [Hle|Hgt].
  - now rewrite Z.min_l.
  - rewrite Z.min_r by lia. rewrite Nat2Z.id, firstn_all.
    symmetry. apply firstn_all2. lia.
Qed.

Lemma slice_to_short seg ms :
  Z.of_nat (List.length seg) <= ms -> slice_to seg ms = seg.
Proof.
  intros H. rewrite slice_to_firstn by lia. apply firstn_all2. lia.
Qed.

Lemma slice_to_length seg ms :
  0 <= ms ->
  Z.of_nat (List.length (slice_to seg ms)) = Z.min ms (Z.of_nat (List.length seg)).
Proof.
  intros Hms. rewrite slice_to_firstn, length_firstn by exact Hms. lia.
Qed.

Lemma concat_length_sum {A} (f : A -> audio) (l : list A) :
  Z.of_nat (List.length (List.concat (map f l))) =
  sum_Z (map (fun a => Z.of_nat (List.length (f a))) l).
Proof.
  induction l as [|a l IH]; simpl; [reflexivity|].
  rewrite length_app, Nat2Z.inj_add, IH. reflexivity.
Qed.

(** When every listed source decodes and every export works, there is
    one clip for each source: its truncated waveform. *)
Lemma clips_all_survive X downloads_dir trimmed_dir duration files names : forall k,
  (forall name, In name names ->
     exists a, fs_read (path_join downloads_dir name) files = Some (Mp3 a)) ->
  (forall p, ext_export X p = None) ->
  map clip_audio (clips X downloads_dir trimmed_dir duration files (enumerate names k))
  = map (fun name => slice_to (source_audio files downloads_dir name) (duration * 1000))
        names.
Proof.
  induction names as [|name names IH]; intros k Hdec Hexp; simpl; [reflexivity|].
  destruct (Hdec name (or_introl eq_refl)) as [a Ha].
  unfold clip_of, source_audio. simpl. rewrite Ha, Hexp. simpl.
  f_equal. apply IH; [|exact Hexp]. intros n Hn. apply Hdec. now right.
Qed.

(** [trim_and_merge], when no clip is made: it fails, with one message
    when the listing has no [.mp3] entry and another when no entry could
    be processed. *)
Lemma trim_and_merge_nothing X downloads_dir duration temp_dir w :
  downloads_dir <> path_join temp_dir "trimmed" ->
  clips X downloads_dir (path_join temp_dir "trimmed") duration (fs w)
    (enumerate (listed_mp3 X downloads_dir w) 1) = [] ->
  fst (trim_and_merge X downloads_dir duration temp_dir w) =
    Raise (Exception (match listed_mp3 X downloads_dir w with
                      | [] => "No audio files were downloaded"
                      | _ => "No audio files could be processed"
                      end)).
Proof.
  intros Hsep Hcs.
  destruct (trim_loop_run X downloads_dir (path_join temp_dir "trimmed") duration Hsep
              (enumerate (listed_mp3 X downloads_dir w) 1) [] w) as [w1 [Hloop _]].
  rewrite Hcs in Hloop. simpl app in Hloop.
  unfold trim_and_merge, bind, makedirs, ret, listdir.
  change (filter (Py.endswith ".mp3")
            (ext_listdir_order X (fs_names downloads_dir (fs w))))
    with (listed_mp3 X downloads_dir w).
  destruct (listed_mp3 X downloads_dir w) as [|name names]; [reflexivity|].
  rewrite Hloop. reflexivity.
Qed.

(** ** Trimming and merging: the claims *)

Lemma downloads_not_trimmed temp_dir :
  path_join temp_dir "downloads" <> path_join temp_dir "trimmed".
Proof. intros H. apply path_join_inj in H. destruct H as [_ H]. discriminate H. Qed.

(** C4, as the program has it. The trimming loop never raises. A source
    that decodes and exports yields its clip whatever happens to the
    other sources, and a source that does not is left out. The ordinal
    of a clip is the position of its source in the listing, counted from
    1, so the ordinals go up strictly, with a gap at each source that
    was left out. *)
Theorem trim_loop_skips_failed_sources X downloads_dir trimmed_dir duration names w :
  downloads_dir <> trimmed_dir ->
  let cs := clips X downloads_dir trimmed_dir duration (fs w) (enumerate names 1) in
  (exists w',
     trim_loop X downloads_dir trimmed_dir duration (enumerate names 1) [] w
       = (Return (map clip_path cs), w')) /\
  (forall i name a,
     nth_error names i = Some name ->
     fs_read (path_join downloads_dir name) (fs w) = Some (Mp3 a) ->
     ext_export X (path_join trimmed_dir (trimmed_name (1 + Z.of_nat i))) = None ->
     In (mkClip (1 + Z.of_nat i)
                (path_join trimmed_dir (trimmed_name (1 + Z.of_nat i)))
                (slice_to a (duration * 1000))) cs) /\
  (forall c, In c cs ->
     exists i name a,
       nth_error names i = Some name /\
       fs_read (path_join downloads_dir name) (fs w) = Some (Mp3 a) /\
       ext_export X (clip_path c) = None /\
       clip_ordinal c = 1 + Z.of_nat i /\
       clip_path c = path_join trimmed_dir (trimmed_name (1 + Z.of_nat i)) /\
       clip_audio c = slice_to a (duration * 1000)) /\
  StronglySorted Z.lt (map clip_ordinal cs).
Proof.
  intros Hsep cs. split; [|split; [|split]].
  - destruct (trim_loop_run X downloads_dir trimmed_dir duration Hsep
                (enumerate names 1) [] w) as [w' [H _]].
    exists w'. exact H.
  - intros i name a Hn Ha He. apply In_clips. exists i, name. split; [exact Hn|].
    unfold clip_of. cbn [fst snd]. now rewrite Ha, He.
  - intros c Hin. apply In_clips in Hin. destruct Hin as [i [name [Hn Hc]]].
    unfold clip_of in Hc. cbn [fst snd] in Hc.
    destruct (fs_read (path_join downloads_dir name) (fs w)) as [[a| |]|] eqn:Ha;
      try discriminate.
    destruct (ext_export X (path_join trimmed_dir (trimmed_name (1 + Z.of_nat i))))
      eqn:He; [discriminate|].
    inversion Hc; subst; cbn [clip_ordinal clip_path clip_audio].
    exists i, name, a. auto 10.
  - apply clips_ordinals_sorted.
Qed.

Lemma trim_loop_skips_failed_sources_witness :
  exists w',
    trim_loop Sample.X0 (path_join Sample.tmp "downloads") (path_join Sample.tmp "trimmed")
      21 (enumerate ["a.mp3"; "b.mp3"; "c.mp3"] 1) [] Sample.w_fetched
    = (Return [path_join (path_join Sample.tmp "trimmed") "trimmed_1.mp3";
               path_join (path_join Sample.tmp "trimmed") "trimmed_3.mp3"], w').
Proof.
  destruct (trim_loop_skips_failed_sources Sample.X0
              (path_join Sample.tmp "downloads") (path_join Sample.tmp "trimmed")
              21 ["a.mp3"; "b.mp3"; "c.mp3"] Sample.w_fetched
              (downloads_not_trimmed Sample.tmp)) as [H _].
  exact H.
Defined.

(** C4, counterexample. Of three sources the second does not decode:
    the files produced are numbered 1 and 3. *)
Lemma skipped_source_keeps_its_ordinal : ~ ordinals_consecutive.
Proof.
  intros H.
  specialize (H Sample.X0 (path_join Sample.tmp "downloads")
                (path_join Sample.tmp "trimmed") 21 ["a.mp3"; "b.mp3"; "c.mp3"]
                Sample.w_fetched
                [path_join (path_join Sample.tmp "trimmed") "trimmed_1.mp3";
                 path_join (path_join Sample.tmp "trimmed") "trimmed_3.mp3"]
                (snd (trim_loop Sample.X0 (path_join Sample.tmp "downloads")
                        (path_join Sample.tmp "trimmed") 21
                        (enumerate ["a.mp3"; "b.mp3"; "c.mp3"] 1) [] Sample.w_fetched))).
  vm_compute in H. specialize (H eq_refl). discriminate H.
Qed.




(** C5. With a positive duration, the clip of a source is its first
    [duration] seconds, and the whole source when it is shorter. When
    every listed source decodes to a waveform that is not empty and
    every export works, every clip is not empty, [trim_and_merge]
    returns, and the length of the composite is the sum over the sources
    of the smaller of [duration] and the length of the source (in
    milliseconds). *)
Theorem composite_duration X downloads_dir duration temp_dir w :
  downloads_dir <> path_join temp_dir "trimmed" ->
  0 < duration ->
  let listing := listed_mp3 X downloads_dir w in
  listing <> [] ->
  (forall name, In name listing ->
     exists a, fs_read (path_join downloads_dir name) (fs w) = Some (Mp3 a) /\ a <> []) ->
  (forall p, ext_export X p = None) ->
  (forall seg,
     slice_to seg (duration * 1000) = firstn (Z.to_nat (duration * 1000)) seg /\
     (Z.of_nat (List.length seg) <= duration * 1000 ->
      slice_to seg (duration * 1000) = seg)) /\
  (forall name, In name listing ->
     firstn (Z.to_nat (duration * 1000)) (source_audio (fs w) downloads_dir name) <> []) /\
  exists w' composite,
    trim_and_merge X downloads_dir duration temp_dir w
      = (Return (path_join temp_dir "mashup.mp3"), w') /\
    fs_read (path_join temp_dir "mashup.mp3") (fs w') = Some (Mp3 composite) /\
    composite =
      List.concat (map (fun name =>
                          firstn (Z.to_nat (duration * 1000))
                                 (source_audio (fs w) downloads_dir name)) listing) /\
    Z.of_nat (List.length composite) =
      sum_Z (map (fun name =>
                    Z.min (duration * 1000) (source_ms (fs w) downloads_dir name))
                 listing).
Proof.
  intros Hsep Hdur listing Hne Hsrc Hexp.
  assert (Hms : 0 <= duration * 1000) by lia.
  assert (Hdec : forall name, In name listing ->
                 exists a, fs_read (path_join downloads_dir name) (fs w) = Some (Mp3 a)).
  { intros name Hin. destruct (Hsrc name Hin) as [a [Ha _]]. eauto. }
  split.
  { intros seg. split; [now apply slice_to_firstn | apply slice_to_short]. }
  split.
  { intros name Hin. destruct (Hsrc name Hin) as [a [Ha Hna]].
    unfold source_audio. rewrite Ha.
    destruct a as [|x a]; [congruence|].
    destruct (Z.to_nat (duration * 1000)) eqn:E; [lia | discriminate]. }
  pose proof (clips_all_survive X downloads_dir (path_join temp_dir "trimmed") duration
                (fs w) listing 1 Hdec Hexp) as Hall.
  destruct (trim_and_merge_run X downloads_dir duration temp_dir w Hsep)
    as [w' [Hrun Hread]].
  - fold listing. intros E. rewrite E in Hall. simpl in Hall.
    destruct listing; [now apply Hne | discriminate Hall].
  - apply Hexp.
  - fold listing in Hread. rewrite Hall in Hread.
    exists w'. eexists. split; [exact Hrun|]. split; [exact Hread|]. split.
    + f_equal. apply map_ext. intros name. now apply slice_to_firstn.
    + rewrite concat_length_sum. f_equal. apply map_ext. intros name.
      unfold source_ms. now apply slice_to_length.
Qed.

Lemma composite_duration_witness :
  exists w' composite,
    trim_and_merge Sample.X_long (path_join Sample.tmp "downloads") 2 Sample.tmp
      (snd (download_and_convert Sample.X_long "Adele" 11 Sample.tmp Sample.w0))
      = (Return (path_join Sample.tmp "mashup.mp3"), w') /\
    fs_read (path_join Sample.tmp "mashup.mp3") (fs w') = Some (Mp3 composite) /\
    Z.of_nat (List.length composite) = 2000 + 1500.
Proof.
  destruct (composite_duration Sample.X_long (path_join Sample.tmp "downloads")
              2 Sample.tmp
              (snd (download_and_convert Sample.X_long "Adele" 11 Sample.tmp Sample.w0))
              (downloads_not_trimmed Sample.tmp))
    as [_ [_ [w' [composite [H1 [H2 [_ H3]]]]]]].
  - lia.
  - vm_compute. discriminate.
  - intros name Hin. vm_compute in Hin. destruct Hin as [<-|[<-|[]]];
      eexists; (split; [vm_compute; reflexivity | discriminate]).
  - reflexivity.
  - exists w', composite. split; [exact H1|]. split; [exact H2|].
    rewrite H3. vm_compute. reflexivity.
Defined.

(** * Further properties *)

(** ** The matcher *)

Lemma append_nil_r s : s ++ "" = s.
Proof. induction s; simpl; congruence. Qed.

Lemma append_assoc (a b c : string) : (a ++ b) ++ c = a ++ (b ++ c).
Proof. induction a; simpl; congruence. Qed.

Lemma append_eq_nil (a b : string) : a ++ b = "" -> a = "" /\ b = "".
Proof. destruct a; simpl; [auto | discriminate]. Qed.

Lemma nullable_matches r : Re.nullable r = true <-> matches r "".
Proof.
  induction r; simpl.
  - split; [discriminate | intros H; inversion H].
  - split; [constructor | reflexivity].
  - split; [discriminate | intros H; inversion H].
  - rewrite andb_true_iff, IHr1, IHr2. split.
    + intros [H1 H2]. exact (MSeq _ _ "" "" H1 H2).
    + intros H. inversion H as [| |? ? s1 s2 H1 H2| | | |]; subst.
      match goal with E : s1 ++ s2 = "" |- _ =>
        apply append_eq_nil in E; destruct E; subst end. auto.
  - rewrite orb_true_iff, IHr1, IHr2. split.
    + intros [H|H]; [now apply MAltL | now apply MAltR].
    + intros H. inversion H; subst; auto.
  - split; [constructor | reflexivity].
Qed.

(** A word of [r*] that starts with [c] starts with a word of [r] that
    starts with [c]. *)
Lemma star_cons_inv r c s :
  matches (Re.Star r) (String c s) ->
  exists s1 s2, s = s1 ++ s2 /\ matches r (String c s1) /\ matches (Re.Star r) s2.
Proof.
  intros H. remember (Re.Star r) as r' eqn:Er. remember (String c s) as cs eqn:Es.
  revert c s Es.
  induction H as [| | | | | |r0 s1 s2 H1 _ H2 IH2]; intros c0 s0 Es; try discriminate.
  injection Er as ->.
  destruct s1 as [|c1 s1]; simpl in Es.
  - apply IH2; [reflexivity | exact Es].
  - injection Es as -> <-. exists s1, s2. auto.
Qed.

Lemma deriv_matches r : forall c s,
  matches (Re.deriv c r) s <-> matches r (String c s).
Proof.
  induction r; intros c s; simpl.
  - split; intros H; inversion H.
  - split; intros H; inversion H.
  - destruct (p c) eqn:Ep; split; intros H.
    + inversion H; subst. now constructor.
    + inversion H; subst. constructor.
    + inversion H.
    + inversion H; subst. congruence.
  - assert (Hseq : matches (Re.Seq (Re.deriv c r1) r2) s ->
                   matches (Re.Seq r1 r2) (String c s)).
    { intros H. inversion H as [| |? ? s1 s2 H1 H2| | | |]; subst.
      apply IHr1 in H1. exact (MSeq _ _ _ _ H1 H2). }
    assert (Hinv : matches (Re.Seq r1 r2) (String c s) ->
                   matches (Re.Seq (Re.deriv c r1) r2) s \/
                   (matches r1 "" /\ matches (Re.deriv c r2) s)).
    { intros H. inversion H as [| |? ? s1 s2 H1 H2| | | |]; subst.
      match goal with E : s1 ++ s2 = String c s |- _ =>
        destruct s1 as [|c1 s1]; simpl in E;
        [ right; subst s2; split; [exact H1 | now apply IHr2]
        | injection E as -> <-; left; apply MSeq; [now apply IHr1 | exact H2] ]
      end. }
    destruct (Re.nullable r1) eqn:En.
    + split.
      * intros H. inversion H; subst; [now apply Hseq|].
        apply nullable_matches in En.
        match goal with Hd : matches (Re.deriv c r2) s |- _ => apply IHr2 in Hd;
          exact (MSeq _ _ "" _ En Hd) end.
      * intros H. destruct (Hinv H) as [H1|[_ H2]];
          [now apply MAltL | now apply MAltR].
    + split; [exact Hseq|].
      intros H. destruct (Hinv H) as [H1|[H1 _]]; [exact H1|].
      apply nullable_matches in H1. congruence.
  - split; intros H; inversion H; subst.
    + apply MAltL. now apply IHr1.
    + apply MAltR. now apply IHr2.
    + apply MAltL. now apply IHr1.
    + apply MAltR. now apply IHr2.
  - split.
    + intros H. inversion H as [| |? ? s1 s2 H1 H2| | | |]; subst.
      apply IHr in H1. exact (MStarApp _ _ _ H1 H2).
    + intros H. apply star_cons_inv in H. destruct H as [s1 [s2 [-> [H1 H2]]]].
      apply MSeq; [now apply IHr | exact H2].
Qed.

(** The matcher decides the language of the expression. *)
Lemma fullmatch_matches s : forall r, Re.fullmatch r s = true <-> matches r s.
Proof.
  induction s as [|c s IH]; intros r; simpl.
  - apply nullable_matches.
  - rewrite IH. apply deriv_matches.
Qed.

Lemma matches_seq r1 r2 s :
  matches (Re.Seq r1 r2) s <->
  exists s1 s2, s = s1 ++ s2 /\ matches r1 s1 /\ matches r2 s2.
Proof.
  split.
  - intros H. inversion H; subst. eauto.
  - intros [s1 [s2 [-> [H1 H2]]]]. now constructor.
Qed.

Lemma matches_class p s :
  matches (Re.Class p) s <-> exists c, s = String c "" /\ p c = true.
Proof.
  split.
  - intros H. inversion H; subst. eauto.
  - intros [c [-> H]]. now constructor.
Qed.

Lemma matches_chr c s : matches (Re.Chr c) s <-> s = String c "".
Proof.
  unfold Re.Chr. rewrite matches_class. split.
  - intros [c' [-> H]]. apply Ascii.eqb_eq in H. now subst.
  - intros ->. exists c. split; [reflexivity | apply Ascii.eqb_refl].
Qed.

Lemma matches_class_star p s :
  matches (Re.Star (Re.Class p)) s <-> all_chars p s = true.
Proof.
  split.
  - intros H. remember (Re.Star (Re.Class p)) as r eqn:Er.
    induction H as [| | | | | |r0 s1 s2 H1 _ H2 IH2]; try discriminate.
    + reflexivity.
    + injection Er as ->. inversion H1; subst. simpl.
      rewrite IH2 by reflexivity. now rewrite andb_true_r.
  - induction s as [|c s IH]; simpl; intros H.
    + constructor.
    + apply andb_prop in H. destruct H as [Hc Hs].
      apply (MStarApp _ (String c "") s); [now constructor | now apply IH].
Qed.

Lemma matches_class_plus p s :
  matches (Re.Plus (Re.Class p)) s <-> s <> "" /\ all_chars p s = true.
Proof.
  unfold Re.Plus. rewrite matches_seq. split.
  - intros [s1 [s2 [-> [H1 H2]]]]. apply matches_class in H1.
    destruct H1 as [c [-> Hc]]. apply matches_class_star in H2. simpl.
    split; [discriminate | now rewrite Hc, H2].
  - intros [Hne H]. destruct s as [|c s]; [congruence|]. simpl in H.
    apply andb_prop in H. destruct H as [Hc Hs].
    exists (String c ""), s. split; [reflexivity|]. split.
    + now constructor.
    + now apply matches_class_star.
Qed.

Lemma matches_two_or_more p s :
  matches (Re.Seq (Re.Class p) (Re.Seq (Re.Class p) (Re.Star (Re.Class p)))) s <->
  (2 <= String.length s)%nat /\ all_chars p s = true.
Proof.
  rewrite matches_seq. split.
  - intros [s1 [s2 [-> [H1 H2]]]]. apply matches_class in H1.
    destruct H1 as [c1 [-> Hc1]]. apply matches_seq in H2.
    destruct H2 as [s3 [s4 [-> [H3 H4]]]]. apply matches_class in H3.
    destruct H3 as [c2 [-> Hc2]]. apply matches_class_star in H4. simpl.
    split; [lia | now rewrite Hc1, Hc2, H4].
  - intros [Hlen H]. destruct s as [|c1 [|c2 s]]; simpl in Hlen; try lia.
    simpl in H. apply andb_prop in H. destruct H as [Hc1 H].
    apply andb_prop in H. destruct H as [Hc2 Hs].
    exists (String c1 ""), (String c2 s). split; [reflexivity|]. split.
    + now constructor.
    + apply matches_seq. exists (String c2 ""), s. split; [reflexivity|].
      split; [now constructor | now apply matches_class_star].
Qed.

(** The pattern of [validate_email] matches the addresses of the shape
    [local@domain.tld], and nothing else. *)
Lemma email_pattern_shape s : matches email_pattern s <-> email_shape s.
Proof.
  unfold email_pattern, email_shape. split.
  - intros H.
    apply matches_seq in H. destruct H as [loc [s1 [-> [Hloc H]]]].
    apply matches_seq in H. destruct H as [at_ [s2 [-> [Hat H]]]].
    apply matches_seq in H. destruct H as [dom [s3 [-> [Hdom H]]]].
    apply matches_seq in H. destruct H as [dot [tld [-> [Hdot Htld]]]].
    apply matches_chr in Hat. apply matches_chr in Hdot. subst.
    apply matches_class_plus in Hloc. apply matches_class_plus in Hdom.
    apply matches_two_or_more in Htld.
    exists loc, dom, tld. tauto.
  - intros [loc [dom [tld [-> [Hl1 [Hl2 [Hd1 [Hd2 [Ht1 Ht2]]]]]]]]].
    apply MSeq; [now apply matches_class_plus|].
    apply (MSeq _ _ "@"); [now apply matches_chr|].
    apply MSeq; [now apply matches_class_plus|].
    apply (MSeq _ _ "."); [now apply matches_chr|].
    now apply matches_two_or_more.
Qed.

Lemma endswith_iff suffix s :
  Py.endswith suffix s = true <-> exists pre, s = pre ++ suffix.
Proof.
  split.
  - induction s as [|c s IH]; cbn [Py.endswith]; intros H.
    + rewrite orb_false_r in H. apply String.eqb_eq in H. subst. now exists "".
    + apply orb_prop in H. destruct H as [H|H].
      * apply String.eqb_eq in H. exists "". now subst.
      * destruct (IH H) as [pre ->]. now exists (String c pre).
  - intros [pre ->]. induction pre as [|c pre IH].
    + change ("" ++ suffix) with suffix.
      destruct suffix; cbn [Py.endswith]; now rewrite String.eqb_refl.
    + change (String c pre ++ suffix) with (String c (pre ++ suffix)).
      cbn [Py.endswith]. rewrite IH. apply orb_true_r.
Qed.

Lemma drop_last_append s c : Re.drop_last (s ++ String c "") = s.
Proof.
  induction s as [|c0 s IH]; [reflexivity|].
  simpl. rewrite IH. destruct s; reflexivity.
Qed.

Lemma validate_email_shape s :
  validate_email (JStr s) = Return true ->
  email_shape s \/ exists s', s = s' ++ Py.nl /\ email_shape s'.
Proof.
  unfold validate_email, Re.match_anchored.
  intros H. injection H as H. apply orb_prop in H. destruct H as [H|H].
  - left. now apply email_pattern_shape, fullmatch_matches.
  - apply andb_prop in H. destruct H as [He Hm].
    apply endswith_iff in He. destruct He as [s' ->].
    unfold Py.nl in Hm. rewrite drop_last_append in Hm.
    right. exists s'. split; [reflexivity|].
    now apply email_pattern_shape, fullmatch_matches.
Qed.

(** X1. [validate_email] accepts a string exactly when it has the shape
    [local@domain.tld], or is such an address followed by one newline. *)
Theorem validate_email_accepts s :
  validate_email (JStr s) = Return true <->
  email_shape s \/ exists s', s = s' ++ Py.nl /\ email_shape s'.
Proof.
  unfold validate_email, Re.match_anchored. split.
  - intros H. injection H as H. apply orb_prop in H. destruct H as [H|H].
    + left. now apply email_pattern_shape, fullmatch_matches.
    + apply andb_prop in H. destruct H as [He Hm].
      apply endswith_iff in He. destruct He as [s' ->].
      unfold Py.nl in Hm. rewrite drop_last_append in Hm.
      right. exists s'. split; [reflexivity|].
      now apply email_pattern_shape, fullmatch_matches.
  - intros [H|[s' [-> H]]]; f_equal.
    + apply email_pattern_shape, fullmatch_matches in H. now rewrite H.
    + apply email_pattern_shape, fullmatch_matches in H.
      assert (He : Py.endswith Py.nl (s' ++ Py.nl) = true)
        by (apply endswith_iff; now exists s').
      rewrite He. unfold Py.nl at 2. rewrite drop_last_append, H.
      apply orb_true_r.
Qed.

(** ** Validation, in full *)

Lemma validate_inputs_nil data :
  validate_inputs data = Return [] <->
  singer_missing data = Return false /\ num_videos_errors data = Return [] /\
  duration_errors data = Return [] /\ email_invalid data = Return false.
Proof.
  unfold validate_inputs.
  destruct (singer_missing data) as [bs|e1]; simpl;
    [|split; [discriminate | intros [H _]; discriminate H]].
  destruct (num_videos_errors data) as [en|e2]; simpl;
    [|split; [discriminate | intros [_ [H _]]; discriminate H]].
  destruct (duration_errors data) as [ed|e3]; simpl;
    [|split; [discriminate | intros [_ [_ [H _]]]; discriminate H]].
  destruct (email_invalid data) as [be|e4]; simpl;
    [|split; [discriminate | intros [_ [_ [_ H]]]; discriminate H]].
  split.
  - intros H. injection H as H.
    destruct bs, be; simpl in H;
      repeat match goal with
             | H : (_ ++ _)%list = [] |- _ =>
                 apply app_eq_nil in H; destruct H; subst
             end; try discriminate; auto.
  - intros [H1 [H2 [H3 H4]]]. injection H1 as ->. injection H2 as ->.
    injection H3 as ->. injection H4 as ->. reflexivity.
Qed.

Lemma check_int_field_nil v bound too_small invalid :
  check_int_field v bound too_small invalid = Return [] <->
  exists n, py_int v = Return n /\ bound < n.
Proof.
  unfold check_int_field. destruct (py_int v) as [n|e].
  - destruct (Z.leb_spec n bound) as [Hle|Hgt]; split.
    + discriminate.
    + intros [n' [E Hn]]. injection E as <-. lia.
    + intros _. exists n. split; [reflexivity | lia].
    + reflexivity.
  - split.
    + destruct (is_value_or_type_error e); discriminate.
    + intros [n [H _]]. discriminate H.
Qed.

Lemma singer_missing_false data :
  singer_missing data = Return false <->
  exists d s, data = JDict d /\ assoc "singer" d = Some (JStr s) /\ Py.strip s <> "".
Proof.
  unfold singer_missing. split.
  - destruct data; simpl; try discriminate.
    + destruct (Py.contains "singer" s); simpl; discriminate.
    + destruct (existsb _ l); simpl; discriminate.
    + destruct (assoc "singer" d) as [v|] eqn:E; simpl; [|discriminate].
      destruct v; simpl; try discriminate.
      intros H. injection H as H. apply String.eqb_neq in H. eauto.
  - intros [d [s [-> [E H]]]]. simpl. rewrite E. simpl.
    apply String.eqb_neq in H. now rewrite H.
Qed.

Lemma email_invalid_false d :
  email_invalid (JDict d) = Return false <->
  exists e, assoc "email" d = Some (JStr e) /\ validate_email (JStr e) = Return true.
Proof.
  unfold email_invalid. simpl. split.
  - destruct (assoc "email" d) as [v|] eqn:E; simpl; [|discriminate].
    destruct v; simpl; try discriminate.
    intros H. injection H as H. apply negb_false_iff in H. exists s. now rewrite H.
  - intros [e [E H]]. rewrite E. simpl in *. injection H as ->. reflexivity.
Qed.

Lemma int_field_errors_nil d key bound too_small invalid required :
  rbind (py_in key (JDict d)) (fun present =>
    if negb present then Return [required]
    else rbind (getitem (JDict d) key) (fun v =>
         check_int_field v bound too_small invalid)) = Return [] <->
  exists v n, assoc key d = Some v /\ py_int v = Return n /\ bound < n.
Proof.
  simpl. destruct (assoc key d) as [v|]; simpl.
  - rewrite check_int_field_nil. split.
    + intros [n H]. eauto.
    + intros [v' [n [E H]]]. injection E as <-. eauto.
  - split; [discriminate | intros [v [n [E _]]]; discriminate E].
Qed.

Lemma validate_inputs_nil_iff data :
  validate_inputs data = Return [] <->
  exists d,
    data = JDict d /\
    (exists s, assoc "singer" d = Some (JStr s) /\ Py.strip s <> "") /\
    (exists v n, assoc "num_videos" d = Some v /\ py_int v = Return n /\ 10 < n) /\
    (exists v n, assoc "duration" d = Some v /\ py_int v = Return n /\ 20 < n) /\
    (exists e, assoc "email" d = Some (JStr e) /\ validate_email (JStr e) = Return true).
Proof.
  rewrite validate_inputs_nil, singer_missing_false. split.
  - intros [[d [s [-> [Hs Hne]]]] [Hn [Hd He]]].
    exists d. split; [reflexivity|]. split; [eauto|].
    split; [now apply int_field_errors_nil in Hn|].
    split; [now apply int_field_errors_nil in Hd|].
    now apply email_invalid_false.
  - intros [d [-> [[s [Hs Hne]] [Hn [Hd He]]]]].
    split; [eauto|].
    split; [now apply int_field_errors_nil|].
    split; [now apply int_field_errors_nil|].
    now apply email_invalid_false.
Qed.

(** X2. [validate_inputs] reports no error exactly for a body that is an
    object with a string singer that is not blank, a count that [int]
    takes above 10, a duration that [int] takes above 20, and an address
    that [validate_email] accepts. *)
Theorem validate_inputs_accepts data :
  validate_inputs data = Return [] <->
  exists d,
    data = JDict d /\
    (exists s, assoc "singer" d = Some (JStr s) /\ Py.strip s <> "") /\
    (exists v n, assoc "num_videos" d = Some v /\ py_int v = Return n /\ 10 < n) /\
    (exists v n, assoc "duration" d = Some v /\ py_int v = Return n /\ 20 < n) /\
    (exists e, assoc "email" d = Some (JStr e) /\ validate_email (JStr e) = Return true).
Proof. apply validate_inputs_nil_iff. Qed.

Lemma validate_inputs_raise_iff data :
  (exists e, validate_inputs data = Raise e) <->
  (exists e, singer_missing data = Raise e) \/
  (exists e, num_videos_errors data = Raise e) \/
  (exists e, duration_errors data = Raise e) \/
  (exists e, email_invalid data = Raise e).
Proof.
  unfold validate_inputs.
  destruct (singer_missing data) as [bs|e1]; simpl; [|split; eauto].
  destruct (num_videos_errors data) as [en|e2]; simpl; [|split; eauto].
  destruct (duration_errors data) as [ed|e3]; simpl; [|split; eauto 6].
  destruct (email_invalid data) as [be|e4]; simpl; [|split; eauto 6].
  split.
  - intros [e H]. discriminate H.
  - intros [[e H]|[[e H]|[[e H]|[e H]]]]; discriminate H.
Qed.

Lemma check_int_field_raises v bound too_small invalid :
  (exists e, check_int_field v bound too_small invalid = Raise e) <-> v = JFloat FInf.
Proof.
  unfold check_int_field. split.
  - intros [e H]. destruct v as [| | |[| |]| | |]; unfold py_int in H;
      repeat first
        [ discriminate H
        | reflexivity
        | match type of H with
          | context [Py.int_of_str ?s] => destruct (Py.int_of_str s)
          | context [?n <=? ?b] => destruct (n <=? b)
          end
        | progress cbn in H ].
  - intros ->. simpl. eauto.
Qed.

Lemma str_field_raises d key (k : json -> result bool) :
  (forall s, exists b, k (JStr s) = Return b) ->
  (forall v, is_str v = false -> exists e, k v = Raise e) ->
  (exists e, rbind (py_in key (JDict d)) (fun present =>
     if negb present then Return true
     else rbind (getitem (JDict d) key) k) = Raise e) <->
  exists v, assoc key d = Some v /\ is_str v = false.
Proof.
  intros Hstr Hother. simpl. destruct (assoc key d) as [v|]; simpl.
  - destruct (is_str v) eqn:Ev.
    + destruct v; try discriminate. destruct (Hstr s) as [b Hb]. rewrite Hb. split.
      * intros [e H]. discriminate H.
      * intros [v [E H]]. injection E as <-. discriminate H.
    + split; [eauto|]. intros _. now apply Hother.
  - split; [intros [e H]; discriminate H | intros [v [E _]]; discriminate E].
Qed.

Lemma int_field_raises d key bound too_small invalid required :
  (exists e, rbind (py_in key (JDict d)) (fun present =>
     if negb present then Return [required]
     else rbind (getitem (JDict d) key) (fun v =>
          check_int_field v bound too_small invalid)) = Raise e) <->
  assoc key d = Some (JFloat FInf).
Proof.
  simpl. destruct (assoc key d) as [v|]; simpl.
  - rewrite check_int_field_raises. split; congruence.
  - split; [intros [e H]; discriminate H | discriminate].
Qed.

(** X3. For a body that is an object, [validate_inputs] raises, instead
    of returning its list, exactly when the singer or the address is
    present and not a string, or the count or the duration is an
    infinite float. *)
Theorem validate_inputs_raises d :
  (exists e, validate_inputs (JDict d) = Raise e) <-> field_raises d.
Proof.
  rewrite validate_inputs_raise_iff. unfold field_raises.
  unfold singer_missing, num_videos_errors, duration_errors, email_invalid.
  rewrite !int_field_raises.
  rewrite (str_field_raises d "singer"), (str_field_raises d "email").
  - reflexivity.
  - intros s. simpl. eauto.
  - intros v Hv. destruct v; try discriminate; simpl; eauto.
  - intros s. simpl. eauto.
  - intros v Hv. destruct v; try discriminate; simpl; eauto.
Qed.

(** X4. A POST without a body (no Content-Length, or one that is not
    positive) is answered 400 with the four "required" messages; the
    body is not parsed and no stage runs. *)
Theorem do_POST_without_body X req w :
  req_content_length req = None \/
  (exists h n, req_content_length req = Some h /\ Py.int_of_str h = Some n /\ n <= 0) ->
  do_POST X req w = (all_required, w).
Proof.
  intros H.
  assert (Hdata : request_data req = Return (JDict [])).
  { unfold request_data. destruct H as [->|[h [n [-> [Hn Hle]]]]]; simpl.
    - reflexivity.
    - rewrite Hn. simpl. apply Z.ltb_ge in Hle. now rewrite Hle. }
  pose proof (do_POST_rejects X req w (JDict []) Hdata) as Hpost.
  exact Hpost.
Qed.

Lemma do_POST_without_body_witness :
  do_POST Sample.X0 (mkRequest (Some " 0 ") (Raise (mkExn "JSONDecodeError" "unused")))
    Sample.w0 = (all_required, Sample.w0).
Proof.
  apply do_POST_without_body. right. exists " 0 ", 0.
  split; [reflexivity|]. split; [reflexivity | lia].
Defined.

(** *** What reaches the pipeline *)

Lemma all_chars_append p a b :
  all_chars p (a ++ b) = all_chars p a && all_chars p b.
Proof. induction a as [|c a IH]; simpl; [reflexivity | now rewrite IH, andb_assoc]. Qed.

Lemma all_chars_impl (p q : ascii -> bool) s :
  (forall c, p c = true -> q c = true) ->
  all_chars p s = true -> all_chars q s = true.
Proof.
  intros Hpq. induction s as [|c s IH]; simpl; [reflexivity|].
  intros H. apply andb_prop in H. destruct H as [Hc Hs].
  now rewrite (Hpq c Hc), IH.
Qed.

Lemma local_char_not_space c : email_local_char c = true -> not_space c = true.
Proof.
  destruct c as [[] [] [] [] [] [] [] []]; vm_compute; intros H;
    first [reflexivity | discriminate H].
Qed.

Lemma domain_char_not_space c : email_domain_char c = true -> not_space c = true.
Proof.
  destruct c as [[] [] [] [] [] [] [] []]; vm_compute; intros H;
    first [reflexivity | discriminate H].
Qed.

Lemma alpha_not_space c : Py.is_alpha c = true -> not_space c = true.
Proof.
  destruct c as [[] [] [] [] [] [] [] []]; vm_compute; intros H;
    first [reflexivity | discriminate H].
Qed.

Lemma email_shape_no_space s :
  email_shape s -> all_chars not_space s = true /\ s <> "".
Proof.
  intros [loc [dom [tld [-> [Hl1 [Hl2 [Hd1 [Hd2 [Ht1 Ht2]]]]]]]]]. split.
  - rewrite !all_chars_append.
    rewrite (all_chars_impl _ _ loc local_char_not_space Hl2).
    rewrite (all_chars_impl _ _ dom domain_char_not_space Hd2).
    rewrite (all_chars_impl _ _ tld alpha_not_space Ht2). reflexivity.
  - destruct loc; [congruence | discriminate].
Qed.

Lemma not_space_spec c :
  not_space c = true -> (nat_of_ascii c < 128)%nat /\ Py.is_space c = false.
Proof.
  unfold not_space. intros H. apply andb_prop in H. destruct H as [H1 H2].
  apply Nat.ltb_lt in H1. apply negb_true_iff in H2. auto.
Qed.

Lemma lstrip_not_space c r : not_space c = true -> Py.lstrip (String c r) = String c r.
Proof.
  intros H. apply not_space_spec in H. destruct H as [Hlt Hsp].
  cbn [Py.lstrip]. rewrite Hsp.
  assert (H2 : forall c2, Py.is_space2 c c2 = false).
  { intros c2. unfold Py.is_space2.
    destruct (Nat.eqb_spec (nat_of_ascii c) 194); [lia | reflexivity]. }
  assert (H3 : forall c2 c3, Py.is_space3 c c2 c3 = false).
  { intros c2 c3. unfold Py.is_space3.
    destruct (Nat.eqb_spec (nat_of_ascii c) 225); [lia|].
    destruct (Nat.eqb_spec (nat_of_ascii c) 226); [lia|].
    destruct (Nat.eqb_spec (nat_of_ascii c) 227); [lia | reflexivity]. }
  destruct r as [|c2 [|c3 r3]]; rewrite ?H2, ?H3; reflexivity.
Qed.

Lemma rstrip_no_space s : all_chars not_space s = true -> Py.rstrip s = s.
Proof.
  induction s as [|c s IH]; [reflexivity|].
  cbn [all_chars]. intros H. apply andb_prop in H. destruct H as [Hc Hs].
  cbn [Py.rstrip]. rewrite (lstrip_not_space c s Hc), (IH Hs). reflexivity.
Qed.

Lemma rstrip_no_space_nl s :
  all_chars not_space s = true -> Py.rstrip (s ++ Py.nl) = s.
Proof.
  induction s as [|c s IH]; [reflexivity|].
  cbn [all_chars]. intros H. apply andb_prop in H. destruct H as [Hc Hs].
  change (String c s ++ Py.nl) with (String c (s ++ Py.nl)).
  cbn [Py.rstrip]. rewrite (lstrip_not_space c (s ++ Py.nl) Hc), (IH Hs). reflexivity.
Qed.

Lemma lstrip_no_space s t :
  all_chars not_space s = true -> s <> "" -> Py.lstrip (s ++ t) = s ++ t.
Proof.
  destruct s as [|c s]; [congruence|]. cbn [all_chars]. intros H _.
  apply andb_prop in H. destruct H as [Hc _].
  change (String c s ++ t) with (String c (s ++ t)). now apply lstrip_not_space.
Qed.

(** The address that passes [validate_email], once stripped, has the
    shape of an address: the newline that the pattern lets through is
    gone. *)
Lemma accepted_email_strip e :
  validate_email (JStr e) = Return true -> email_shape (Py.strip e).
Proof.
  intros H. apply validate_email_shape in H.
  destruct H as [H|[s [-> H]]]; destruct (email_shape_no_space _ H) as [Hns Hne];
    unfold Py.strip.
  - rewrite <- (append_nil_r e) at 1. rewrite lstrip_no_space by assumption.
    rewrite append_nil_r, rstrip_no_space by assumption. exact H.
  - rewrite lstrip_no_space by assumption.
    rewrite rstrip_no_space_nl by assumption. exact H.
Qed.

Lemma handle_post_cases X req w :
  (snd (do_POST X req w) = w /\
   (status (fst (do_POST X req w)) = 400 \/ status (fst (do_POST X req w)) = 500)) \/
  exists singer n dur email,
    singer <> "" /\ 10 < n /\ 20 < dur /\ email_shape email /\
    handle_post X req w =
      (create_mashup X singer n dur email ;;
       ret (mkResponse 200
              [("success", JBool true);
               ("message", JStr ("Mashup created and sent to " ++ email))])) w.
Proof.
  destruct (request_data req) as [data|e] eqn:Hdata.
  2:{ left. unfold do_POST, handle_post, bind, lift. rewrite Hdata.
      split; [reflexivity | right; reflexivity]. }
  pose proof (do_POST_rejects X req w data Hdata) as Hrej.
  destruct (validate_inputs data) as [[|err errs]|e] eqn:Hval.
  2:{ left. rewrite Hrej. split; [reflexivity | left; reflexivity]. }
  2:{ left. rewrite Hrej. split; [reflexivity | right; reflexivity]. }
  right. apply validate_inputs_nil_iff in Hval.
  destruct Hval as [d [-> [[s [Hs Hsne]] [[vn [n [Hn [Hnv Hnb]]]]
                     [[vd [dur [Hd [Hdv Hdb]]]] [e [He Hev]]]]]]].
  exists (Py.strip s), n, dur, (Py.strip e).
  split; [exact Hsne|]. split; [exact Hnb|]. split; [exact Hdb|].
  split; [now apply accepted_email_strip|].
  assert (Hval : validate_inputs (JDict d) = Return []).
  { apply validate_inputs_nil_iff. exists d. split; [reflexivity|].
    split; [exists s; auto|]. split; [exists vn, n; auto|].
    split; [exists vd, dur; auto|]. exists e; auto. }
  unfold handle_post. unfold bind at 1, lift at 1. rewrite Hdata.
  unfold bind at 1, lift at 1. rewrite Hval.
  unfold bind, lift. simpl. rewrite Hs, Hn, Hd, He. simpl. rewrite Hnv, Hdv.
  reflexivity.
Qed.

(** X5. Whatever the request, the handler either answers 400 or 500
    without running anything, or calls [create_mashup] with a singer
    that is not empty, a count above 10, a duration above 20 and an
    address of the shape [local@domain.tld]. *)
Theorem do_POST_pipeline_arguments X req w :
  (snd (do_POST X req w) = w /\
   (status (fst (do_POST X req w)) = 400 \/ status (fst (do_POST X req w)) = 500)) \/
  exists singer n dur email,
    singer <> "" /\ 10 < n /\ 20 < dur /\ email_shape email /\
    handle_post X req w =
      (create_mashup X singer n dur email ;;
       ret (mkResponse 200
              [("success", JBool true);
               ("message", JStr ("Mashup created and sent to " ++ email))])) w.
Proof. apply handle_post_cases. Qed.

(** ** What the stages leave alone *)

Create HintDb pres.

Section Preserves.

Variable R : World -> World -> Prop.
Variable good : path -> Prop.

Hypothesis R_refl : forall w, R w w.
Hypothesis R_trans : forall a b c, R a b -> R b c -> R a c.
Hypothesis R_print :
  forall w s, R w (mkWorld (fs w) (environ w) (stdout w ++ [s])%list (trace w)).
Hypothesis R_write : forall w p f, good p -> R w (set_fs (fs_write p f (fs w)) w).
Hypothesis R_log : forall w ev, R w (log ev w).

Lemma preserves_ret {A} (a : A) : preserves R (ret a).
Proof. intros w r w' H. inversion H; subst. apply R_refl. Qed.

Lemma preserves_raise {A} e : preserves R (@raise A e).
Proof. intros w r w' H. inversion H; subst. apply R_refl. Qed.

Lemma preserves_bind {A B} (m : M A) (k : A -> M B) :
  preserves R m -> (forall a, preserves R (k a)) -> preserves R (bind m k).
Proof.
  intros Hm Hk w r w' H. unfold bind in H.
  destruct (m w) as [[a|e] w1] eqn:E.
  - exact (R_trans _ _ _ (Hm _ _ _ E) (Hk a _ _ _ H)).
  - inversion H; subst. exact (Hm _ _ _ E).
Qed.

Lemma preserves_try_except {A} (m : M A) (h : exn -> M A) :
  preserves R m -> (forall e, preserves R (h e)) -> preserves R (try_except m h).
Proof.
  intros Hm Hh w r w' H. unfold try_except in H.
  destruct (m w) as [[a|e] w1] eqn:E.
  - inversion H; subst. exact (Hm _ _ _ E).
  - exact (R_trans _ _ _ (Hm _ _ _ E) (Hh e _ _ _ H)).
Qed.

Lemma preserves_try_finally {A} (m : M A) (fin : M unit) :
  preserves R m -> preserves R fin -> preserves R (try_finally m fin).
Proof.
  intros Hm Hf w r w' H. unfold try_finally in H.
  destruct (m w) as [r1 w1] eqn:E. destruct (fin w1) as [[u|e] w2] eqn:F;
    inversion H; subst; exact (R_trans _ _ _ (Hm _ _ _ E) (Hf _ _ _ F)).
Qed.

Lemma preserves_read_file p : preserves R (read_file p).
Proof.
  intros w r w' H. unfold read_file in H.
  destruct (fs_read p (fs w)); inversion H; subst; apply R_refl.
Qed.

Lemma preserves_environ_get k : preserves R (environ_get k).
Proof. intros w r w' H. inversion H; subst. apply R_refl. Qed.

Lemma preserves_listdir X p : preserves R (listdir X p).
Proof. intros w r w' H. inversion H; subst. apply R_refl. Qed.

Lemma preserves_print s : preserves R (print s).
Proof. intros w r w' H. inversion H; subst. apply R_print. Qed.

Lemma preserves_write_file p f : good p -> preserves R (write_file p f).
Proof. intros Hp w r w' H. inversion H; subst. now apply R_write. Qed.

Lemma preserves_requests_post X u a p : preserves R (requests_post X u a p).
Proof. intros w r w' H. inversion H; subst. apply R_log. Qed.

Lemma preserves_mkdtemp X : preserves R (mkdtemp X).
Proof.
  intros w r w' H. unfold mkdtemp in H.
  destruct (ext_mkdtemp X); inversion H; subst; apply R_log.
Qed.

Lemma R_fetch_into dir fetched : forall w,
  (forall name, good (path_join dir name)) ->
  R w (set_fs (fetch_into dir fetched (fs w)) w).
Proof.
  unfold fetch_into. induction fetched as [|[name f] rest IH]; intros w Hg; simpl.
  - destruct w; apply R_refl.
  - eapply R_trans; [apply (R_write w (path_join dir name) f (Hg name))|].
    exact (IH (set_fs (fs_write (path_join dir name) f (fs w)) w) Hg).
Qed.

Lemma preserves_extract_info X q n dir :
  (forall name, good (path_join dir name)) -> preserves R (extract_info X q n dir).
Proof.
  intros Hg w r w' H. unfold extract_info in H.
  destruct (ext_extract_info X q n) as [files r0]. inversion H; subst.
  eapply R_trans; [apply (R_log w)|].
  exact (R_fetch_into dir files (log (EvExtractInfo q n dir) w) Hg).
Qed.

Hint Resolve preserves_ret preserves_raise preserves_bind preserves_try_except
  preserves_read_file preserves_environ_get preserves_listdir preserves_print
  preserves_write_file preserves_requests_post preserves_extract_info : pres.

Ltac pres_auto :=
  repeat first
    [ progress (intros)
    | solve [auto with pres]
    | apply preserves_bind | apply preserves_try_except
    | match goal with
      | |- preserves _ (match ?x with _ => _ end) => destruct x
      | |- preserves _ (if ?b then _ else _) => destruct b
      end ].

Lemma preserves_from_mp3 p : preserves R (from_mp3 p).
Proof. unfold from_mp3. pres_auto. Qed.

Lemma preserves_export X a p : good p -> preserves R (export X a p).
Proof. intros Hp. unfold export. pres_auto. Qed.

Hint Resolve preserves_from_mp3 preserves_export : pres.

Lemma preserves_download_and_convert X singer n t :
  (forall name, good (path_join (path_join t "downloads") name)) ->
  preserves R (download_and_convert X singer n t).
Proof. intros Hg. unfold download_and_convert, makedirs. pres_auto. Qed.

Lemma preserves_trim_loop X dd td dur items :
  (forall name, good (path_join td name)) ->
  forall acc, preserves R (trim_loop X dd td dur items acc).
Proof.
  intros Hg. induction items as [|[idx file] rest IH]; intros acc; simpl.
  - auto with pres.
  - apply preserves_bind; [unfold trim_one; pres_auto | intros; apply IH].
Qed.

Lemma preserves_merge_loop files : forall acc, preserves R (merge_loop files acc).
Proof.
  induction files as [|f rest IH]; intros acc; simpl.
  - auto with pres.
  - apply preserves_bind; [auto with pres | intros; apply IH].
Qed.

Hint Resolve preserves_trim_loop preserves_merge_loop : pres.

Lemma preserves_trim_and_merge X dd dur t :
  (forall name, good (path_join (path_join t "trimmed") name)) ->
  good (path_join t "mashup.mp3") ->
  preserves R (trim_and_merge X dd dur t).
Proof. intros Hg Hm. unfold trim_and_merge, makedirs. pres_auto. Qed.

Lemma preserves_create_zip X f t :
  good (path_join t "mashup.zip") -> preserves R (create_zip X f t).
Proof. intros Hg. unfold create_zip. pres_auto. Qed.

Lemma preserves_send_email X z r s : preserves R (send_email X z r s).
Proof. unfold send_email. pres_auto. Qed.

Lemma preserves_run_stages X singer n d email t :
  (forall name, good (path_join (path_join t "downloads") name)) ->
  (forall name, good (path_join (path_join t "trimmed") name)) ->
  good (path_join t "mashup.mp3") -> good (path_join t "mashup.zip") ->
  preserves R (run_stages X singer n d email t).
Proof.
  intros H1 H2 H3 H4. unfold run_stages.
  apply preserves_bind; [now apply preserves_download_and_convert|]. intros dd.
  apply preserves_bind; [now apply preserves_trim_and_merge|]. intros mf.
  apply preserves_bind; [now apply preserves_create_zip|]. intros zf.
  apply preserves_bind; [apply preserves_send_email | intros; apply preserves_ret].
Qed.

Lemma preserves_classify {A} e : preserves R (@classify A e).
Proof. unfold classify. pres_auto. Qed.

End Preserves.

(** *** The three relations *)

Lemma same_trace_refl w : same_trace w w.
Proof. reflexivity. Qed.

Lemma same_trace_trans a b c : same_trace a b -> same_trace b c -> same_trace a c.
Proof. unfold same_trace. congruence. Qed.

Lemma same_outside_refl dir w : same_outside dir w w.
Proof. intros p _. reflexivity. Qed.

Lemma same_outside_trans dir a b c :
  same_outside dir a b -> same_outside dir b c -> same_outside dir a c.
Proof. intros H1 H2 p Hp. now rewrite (H2 p Hp), (H1 p Hp). Qed.

Lemma same_outside_write dir w p f :
  is_prefix dir p = true -> same_outside dir w (set_fs (fs_write p f (fs w)) w).
Proof.
  intros Hp q Hq. simpl. apply fs_read_write_neq. intros ->. congruence.
Qed.

Lemma same_inside_refl dir w : same_inside dir w w.
Proof. intros name. reflexivity. Qed.

Lemma same_inside_trans dir a b c :
  same_inside dir a b -> same_inside dir b c -> same_inside dir a c.
Proof. intros H1 H2 name. now rewrite (H2 name), (H1 name). Qed.

Lemma same_inside_write dir w p f :
  (forall name, p <> path_join dir name) ->
  same_inside dir w (set_fs (fs_write p f (fs w)) w).
Proof.
  intros Hp name. simpl. apply fs_read_write_neq. intros E. now apply (Hp name).
Qed.

Lemma is_prefix_app (p l : path) : is_prefix p (p ++ l)%list = true.
Proof.
  induction p as [|a p IH]; simpl; [reflexivity|].
  now rewrite String.eqb_refl, IH.
Qed.

Lemma is_prefix_join p name : is_prefix p (path_join p name) = true.
Proof. apply is_prefix_app. Qed.

Lemma is_prefix_join2 p sub name : is_prefix p (path_join (path_join p sub) name) = true.
Proof. unfold path_join. rewrite <- app_assoc. apply is_prefix_app. Qed.

Lemma fs_read_remove_tree dir p files :
  fs_read p (fs_remove_tree dir files) =
  if is_prefix dir p then None else fs_read p files.
Proof.
  unfold fs_remove_tree. induction files as [|[q f] r IH]; simpl.
  - now destruct (is_prefix dir p).
  - destruct (is_prefix dir q) eqn:Eq; simpl.
    + rewrite IH. destruct (path_eq_dec q p) as [->|Hne]; [now rewrite Eq|reflexivity].
    + destruct (path_eq_dec q p) as [->|Hne]; [now rewrite Eq | exact IH].
Qed.

(** *** The stages that make no call *)

Lemma silent_trim_and_merge X dd dur t : preserves same_trace (trim_and_merge X dd dur t).
Proof.
  apply preserves_trim_and_merge with (good := fun _ => True);
    first [ exact same_trace_refl | exact same_trace_trans
          | exact I | intros; exact I | intros; reflexivity ].
Qed.

Lemma silent_create_zip X f t : preserves same_trace (create_zip X f t).
Proof.
  apply preserves_create_zip with (good := fun _ => True);
    first [ exact same_trace_refl | exact same_trace_trans
          | exact I | intros; exact I | intros; reflexivity ].
Qed.

(** *** The stages write under the workspace *)

Lemma outside_run_stages X singer n d email t :
  preserves (same_outside t) (run_stages X singer n d email t).
Proof.
  apply preserves_run_stages with (good := fun p => is_prefix t p = true);
    first [ exact (same_outside_refl t) | exact (same_outside_trans t)
          | exact (same_outside_write t)
          | intros; apply is_prefix_join2 | apply is_prefix_join
          | intros; intros p Hp; reflexivity ].
Qed.

Lemma outside_cleanup X t : preserves (same_outside t) (cleanup X t).
Proof.
  intros w r w' H. unfold cleanup, try_except, rmtree in H.
  destruct (ext_rmtree X t); inversion H; subst; intros p Hp; simpl.
  - reflexivity.
  - now rewrite fs_read_remove_tree, Hp.
Qed.

(** The run, as the stages followed by the cleanup. *)
Lemma create_mashup_split X singer n d email w t :
  ext_mkdtemp X = Return t ->
  create_mashup X singer n d email w =
  let (r, w1) := try_except (run_stages X singer n d email t) classify
                   (log (EvMkdtemp (Return t)) w) in
  (r, snd (cleanup X t w1)).
Proof.
  intros Hmk. unfold create_mashup, bind, mkdtemp, try_finally. rewrite Hmk.
  destruct (try_except _ _ _) as [r w1].
  destruct (cleanup_run X t w1) as [w2 [Hc _]]. now rewrite Hc.
Qed.

(** X6. A run changes no file outside its workspace, whatever the
    stages and the removal do. *)
Theorem create_mashup_touches_only_workspace X singer n d email w t :
  ext_mkdtemp X = Return t ->
  forall p, is_prefix t p = false ->
    fs_read p (fs (snd (create_mashup X singer n d email w))) = fs_read p (fs w).
Proof.
  intros Hmk. rewrite (create_mashup_split X singer n d email w t Hmk).
  destruct (try_except _ _ _) as [r w1] eqn:Hrun. simpl snd.
  assert (H1 : same_outside t (log (EvMkdtemp (Return t)) w) w1).
  { revert Hrun. apply preserves_try_except.
    - exact (same_outside_trans t).
    - apply outside_run_stages.
    - intros e. apply preserves_classify. exact (same_outside_refl t). }
  assert (H2 : same_outside t w1 (snd (cleanup X t w1))).
  { destruct (cleanup X t w1) as [rc w2] eqn:Hc. exact (outside_cleanup X t _ _ _ Hc). }
  intros p Hp. rewrite (H2 p Hp), (H1 p Hp). reflexivity.
Qed.

Lemma create_mashup_touches_only_workspace_witness :
  fs_read ["home"; "notes.txt"]
    (fs (snd (create_mashup Sample.X0 "Adele" 11 21 "fan@example.org"
                (set_fs [(["home"; "notes.txt"], Junk "keep")] Sample.w0))))
  = Some (Junk "keep").
Proof.
  rewrite (create_mashup_touches_only_workspace Sample.X0 "Adele" 11 21
             "fan@example.org" _ Sample.tmp eq_refl); reflexivity.
Defined.

(** X7. When the removal succeeds, no file is left under the workspace
    at the end of the run, whether the run succeeded or failed. *)
Theorem create_mashup_leaves_no_file X singer n d email w t :
  ext_mkdtemp X = Return t -> ext_rmtree X t = None ->
  forall p, is_prefix t p = true ->
    fs_read p (fs (snd (create_mashup X singer n d email w))) = None.
Proof.
  intros Hmk Hrm p Hp. rewrite (create_mashup_split X singer n d email w t Hmk).
  destruct (try_except _ _ _) as [r w1]. simpl snd.
  unfold cleanup, try_except, rmtree. rewrite Hrm. simpl.
  now rewrite fs_read_remove_tree, Hp.
Qed.

Lemma create_mashup_leaves_no_file_witness :
  fs_read (path_join Sample.tmp "mashup.zip")
    (fs (snd (create_mashup Sample.X0 "Adele" 11 21 "fan@example.org" Sample.w0)))
  = None.
Proof.
  apply (create_mashup_leaves_no_file Sample.X0 "Adele" 11 21 "fan@example.org"
           Sample.w0 Sample.tmp); reflexivity.
Defined.

(** ** The calls of a run *)

Lemma download_and_convert_world X singer n t w :
  trace (snd (download_and_convert X singer n t w)) =
    (trace w ++ [search_event singer n t])%list /\
  fs (snd (download_and_convert X singer n t w)) =
    fetch_into (path_join t "downloads")
      (fst (ext_extract_info X ("ytsearch" ++ Py.str_of_int n ++ ":" ++ singer) n))
      (fs w).
Proof.
  unfold download_and_convert, bind, makedirs, ret, try_except, extract_info,
    search_event, fetch_into.
  destruct (ext_extract_info X _ n) as [files [[|]|e]]; simpl; auto.
Qed.

(** What [send_email] adds to the trace: nothing when it fails before
    the request, the request otherwise; and it returns only when the
    provider answered 200. *)
Lemma send_email_trace X z r s w res w' :
  send_email X z r s w = (res, w') ->
  (trace w' = trace w /\ is_return res = false) \/
  exists key content,
    assoc "RESEND_API_KEY" (environ w) = Some key /\ key <> "" /\
    fs_read z (fs w) = Some content /\
    trace w' = (trace w ++ [post_event key r s content])%list /\
    (is_return res = true ->
     exists text, ext_post X resend_url ("Bearer " ++ key)
                    (make_email_data r s content) = Return (200, text)).
Proof.
  unfold send_email, bind, environ_get.
  destruct (assoc "RESEND_API_KEY" (environ w)) as [[|c key]|] eqn:Hkey;
    try (intros H; inversion H; subst; left; split; reflexivity).
  unfold read_file. destruct (fs_read z (fs w)) as [content|] eqn:Hz;
    [|intros H; inversion H; subst; left; split; reflexivity].
  unfold try_except, bind, requests_post.
  intros H. right. exists (String c key), content.
  split; [reflexivity|]. split; [discriminate|]. split; [reflexivity|].
  destruct (ext_post X resend_url ("Bearer " ++ String c key)
              (make_email_data r s content)) as [[code text]|e] eqn:Hpost.
  - simpl in H. destruct (Z.eqb_spec code 200) as [->|Hne];
      inversion H; subst; simpl; split; try reflexivity; try discriminate.
    intros _. now exists text.
  - inversion H; subst; simpl. split; [reflexivity | discriminate].
Qed.

Lemma calm_environ {A} (m : M A) w r w' : calm m -> m w = (r, w') -> environ w' = environ w.
Proof. intros Hc H. now destruct (Hc _ _ _ H). Qed.

(** The calls of the four stages: the search, then at most one request
    to the notification provider. *)
Lemma run_stages_trace X singer n d email t w res w' :
  run_stages X singer n d email t w = (res, w') ->
  (trace w' = (trace w ++ [search_event singer n t])%list /\ is_return res = false) \/
  exists key content,
    assoc "RESEND_API_KEY" (environ w) = Some key /\
    trace w' = (trace w ++ [search_event singer n t; post_event key email singer content])%list /\
    (is_return res = true ->
     exists text, ext_post X resend_url ("Bearer " ++ key)
                    (make_email_data email singer content) = Return (200, text)).
Proof.
  unfold run_stages, bind. intros H.
  pose proof (download_and_convert_world X singer n t w) as [Ht1 _].
  destruct (download_and_convert X singer n t w) as [[dd|e] w1] eqn:H1; simpl in Ht1;
    [|inversion H; subst; left; split; [exact Ht1 | reflexivity]].
  pose proof (calm_environ _ _ _ _ (calm_download_and_convert X singer n t) H1) as He1.
  destruct (trim_and_merge X dd d t w1) as [[mf|e] w2] eqn:H2;
    pose proof (silent_trim_and_merge X dd d t _ _ _ H2) as Ht2;
    pose proof (calm_environ _ _ _ _ (calm_trim_and_merge X dd d t) H2) as He2;
    unfold same_trace in Ht2;
    [|inversion H; subst; left; split; [congruence | reflexivity]].
  destruct (create_zip X mf t w2) as [[zf|e] w3] eqn:H3;
    pose proof (silent_create_zip X mf t _ _ _ H3) as Ht3;
    pose proof (calm_environ _ _ _ _ (calm_create_zip X mf t) H3) as He3;
    unfold same_trace in Ht3;
    [|inversion H; subst; left; split; [congruence | reflexivity]].
  destruct (send_email X zf email singer w3) as [rs w4] eqn:H4.
  assert (Hres : is_return res = is_return rs /\ w' = w4).
  { destruct rs; inversion H; subst; auto. }
  destruct Hres as [Hres ->]. rewrite Hres.
  destruct (send_email_trace X zf email singer w3 rs w4 H4)
    as [[Ht4 Hf]|[key [content [Hk [_ [_ [Ht4 Hok]]]]]]].
  - left. split; [congruence | exact Hf].
  - right. exists key, content. split; [congruence|]. split; [|exact Hok].
    rewrite Ht4, Ht3, Ht2, Ht1, <- app_assoc. reflexivity.
Qed.

Lemma classify_raises {A} e w : exists e', @classify A e w = (Raise e', w).
Proof. unfold classify. destruct (looks_time_based (exn_msg e)); eexists; reflexivity. Qed.

(** The calls of a run, once the workspace is made. *)
Lemma create_mashup_trace X singer n d email w t :
  ext_mkdtemp X = Return t ->
  exists posts,
    trace (snd (create_mashup X singer n d email w)) =
      (trace w ++ [EvMkdtemp (Return t); search_event singer n t] ++ posts ++
       [EvRmtree t (ext_rmtree X t)])%list /\
    (posts = [] /\ is_return (fst (create_mashup X singer n d email w)) = false \/
     exists key content,
       assoc "RESEND_API_KEY" (environ w) = Some key /\
       posts = [post_event key email singer content] /\
       (is_return (fst (create_mashup X singer n d email w)) = true ->
        exists text, ext_post X resend_url ("Bearer " ++ key)
                       (make_email_data email singer content) = Return (200, text))).
Proof.
  intros Hmk.
  destruct (run_stages X singer n d email t (log (EvMkdtemp (Return t)) w))
    as [res w1] eqn:Hrun.
  assert (Hte : exists r, try_except (run_stages X singer n d email t) classify
                            (log (EvMkdtemp (Return t)) w) = (r, w1) /\
                          is_return r = is_return res).
  { unfold try_except. rewrite Hrun. destruct res as [b|e].
    - eexists. split; reflexivity.
    - destruct (@classify_raises bool e w1) as [e' ->]. eexists. split; reflexivity. }
  destruct Hte as [r [Hte Hr]].
  destruct (create_mashup_run X singer n d email w t Hmk r w1 Hte) as [w2 [Hc [_ Ht2]]].
  rewrite Hc. simpl fst; simpl snd. rewrite Hr.
  destruct (run_stages_trace X singer n d email t _ res w1 Hrun)
    as [[Ht1 Hf]|[key [content [Hk [Ht1 Hok]]]]].
  - exists []. split; [|left; auto].
    rewrite Ht2, Ht1. simpl. rewrite <- !app_assoc. reflexivity.
  - exists [post_event key email singer content]. split.
    + rewrite Ht2, Ht1. simpl. rewrite <- !app_assoc. reflexivity.
    + right. exists key, content. auto.
Qed.

(** X8. Once the workspace is made, a run makes these calls and no
    other: the search for the singer, at most one request to the
    notification provider, with the caller's key, and last the removal
    of the workspace. It returns only after the provider has answered
    200 to that request. *)
Theorem create_mashup_call_protocol X singer n d email w t :
  ext_mkdtemp X = Return t ->
  exists posts,
    trace (snd (create_mashup X singer n d email w)) =
      (trace w ++ [EvMkdtemp (Return t); search_event singer n t] ++ posts ++
       [EvRmtree t (ext_rmtree X t)])%list /\
    (posts = [] /\ is_return (fst (create_mashup X singer n d email w)) = false \/
     exists key content,
       assoc "RESEND_API_KEY" (environ w) = Some key /\
       posts = [post_event key email singer content] /\
       (is_return (fst (create_mashup X singer n d email w)) = true ->
        exists text, ext_post X resend_url ("Bearer " ++ key)
                       (make_email_data email singer content) = Return (200, text))).
Proof. apply create_mashup_trace. Qed.

Lemma create_mashup_call_protocol_witness :
  exists posts,
    trace (snd (create_mashup Sample.X_refused "Adele" 11 21 "fan@example.org" Sample.w0))
    = ([EvMkdtemp (Return Sample.tmp); search_event "Adele" 11 Sample.tmp] ++ posts ++
       [EvRmtree Sample.tmp None])%list /\
    List.length posts = 1%nat.
Proof.
  destruct (create_mashup_call_protocol Sample.X_refused "Adele" 11 21
              "fan@example.org" Sample.w0 Sample.tmp eq_refl)
    as [posts [Ht Hp]].
  exists posts. split; [exact Ht|].
  destruct Hp as [[-> _]|[key [content [_ [-> _]]]]]; [|reflexivity].
  vm_compute in Ht. discriminate Ht.
Defined.

(** ** Packaging *)

Lemma mashup_not_zip t : path_join t "mashup.mp3" <> path_join t "mashup.zip".
Proof. intros H. apply path_join_inj in H. destruct H as [_ H]. discriminate H. Qed.

Lemma create_zip_run X mf t w content :
  fs_read mf (fs w) = Some content ->
  ext_zip X (path_join t "mashup.zip") = None ->
  mf <> path_join t "mashup.zip" ->
  exists w',
    create_zip X mf t w = (Return (path_join t "mashup.zip"), w') /\
    fs_read (path_join t "mashup.zip") (fs w') = Some (ZipFile [("mashup.mp3", content)]) /\
    fs_read mf (fs w') = Some content.
Proof.
  intros Hmf Hzip Hne. unfold create_zip, bind. rewrite Hzip.
  unfold write_file at 1, read_file. simpl fs.
  rewrite fs_read_write_neq by exact Hne. rewrite Hmf.
  unfold write_file, ret. eexists. split; [reflexivity|]. simpl. split.
  - apply fs_read_write_eq.
  - rewrite !fs_read_write_neq by exact Hne. exact Hmf.
Qed.

(** X9. [create_zip], for a source that is not the archive itself.
    When the source is there and the archive can be written, the
    archive holds one entry, [mashup.mp3], with the content of the
    source, and the source is unchanged. When the source is missing,
    the error is [FileNotFoundError] and an empty archive is left. *)
Theorem create_zip_archive X mf t w :
  mf <> path_join t "mashup.zip" ->
  ext_zip X (path_join t "mashup.zip") = None ->
  (forall content, fs_read mf (fs w) = Some content ->
     fst (create_zip X mf t w) = Return (path_join t "mashup.zip") /\
     fs_read (path_join t "mashup.zip") (fs (snd (create_zip X mf t w)))
       = Some (ZipFile [("mashup.mp3", content)]) /\
     fs_read mf (fs (snd (create_zip X mf t w))) = Some content) /\
  (fs_read mf (fs w) = None ->
     fst (create_zip X mf t w) = Raise (FileNotFoundError mf) /\
     fs_read (path_join t "mashup.zip") (fs (snd (create_zip X mf t w)))
       = Some (ZipFile [])).
Proof.
  intros Hne Hzip. split.
  - intros content Hmf.
    destruct (create_zip_run X mf t w content Hmf Hzip Hne) as [w' [-> [H1 H2]]].
    auto.
  - intros Hmf. unfold create_zip, bind. rewrite Hzip.
    unfold write_file at 1, read_file. simpl fs.
    rewrite fs_read_write_neq by exact Hne. rewrite Hmf. simpl.
    split; [reflexivity | apply fs_read_write_eq].
Qed.

Lemma create_zip_archive_witness :
  fst (create_zip Sample.X0 (path_join Sample.tmp "mashup.mp3") Sample.tmp Sample.w0)
    = Raise (FileNotFoundError (path_join Sample.tmp "mashup.mp3")) /\
  fs_read (path_join Sample.tmp "mashup.zip")
    (fs (snd (create_zip Sample.X0 (path_join Sample.tmp "mashup.mp3") Sample.tmp
                Sample.w0))) = Some (ZipFile []).
Proof.
  apply (create_zip_archive Sample.X0 (path_join Sample.tmp "mashup.mp3") Sample.tmp
           Sample.w0 (mashup_not_zip Sample.tmp)); reflexivity.
Defined.

(** ** The sources *)

(** X10. [trim_and_merge] does not change the files of the downloads
    directory, as long as that directory is neither the workspace nor
    its [trimmed] directory. *)
Theorem trim_and_merge_keeps_sources X dd d t w :
  dd <> path_join t "trimmed" -> dd <> t ->
  forall name,
    fs_read (path_join dd name) (fs (snd (trim_and_merge X dd d t w)))
    = fs_read (path_join dd name) (fs w).
Proof.
  intros Htd Ht.
  assert (H : preserves (same_inside dd) (trim_and_merge X dd d t)).
  { apply preserves_trim_and_merge with (good := fun p => forall name, p <> path_join dd name).
    - exact (same_inside_refl dd).
    - exact (same_inside_trans dd).
    - intros w0 s name. reflexivity.
    - exact (same_inside_write dd).
    - intros n1 n2 E. apply path_join_inj in E. destruct E as [E _]. now apply Htd.
    - intros n2 E. apply path_join_inj in E. destruct E as [E _]. now apply Ht. }
  destruct (trim_and_merge X dd d t w) as [r w'] eqn:E.
  exact (H _ _ _ E).
Qed.

Lemma trim_and_merge_keeps_sources_witness :
  fs_read (path_join (path_join Sample.tmp "downloads") "a.mp3")
    (fs (snd (trim_and_merge Sample.X0 (path_join Sample.tmp "downloads") 21 Sample.tmp
                Sample.w_fetched)))
  = Some (Mp3 (Sample.song 1 3)).
Proof.
  rewrite (trim_and_merge_keeps_sources Sample.X0 (path_join Sample.tmp "downloads")
             21 Sample.tmp Sample.w_fetched (downloads_not_trimmed Sample.tmp)).
  - reflexivity.
  - intros H. apply (f_equal (@List.length string)) in H. discriminate H.
Defined.

(** ** Whole runs *)

Lemma download_and_convert_ok X singer n t w :
  snd (ext_extract_info X ("ytsearch" ++ Py.str_of_int n ++ ":" ++ singer) n)
    = Return true ->
  download_and_convert X singer n t w =
    (Return (path_join t "downloads"), snd (download_and_convert X singer n t w)).
Proof.
  intros Hinfo. pose proof (download_and_convert_run X singer n t w) as H.
  rewrite Hinfo in H. destruct (download_and_convert X singer n t w) as [r w1].
  simpl in *. now subst.
Qed.

Lemma environ_log ev w : environ (log ev w) = environ w.
Proof. reflexivity. Qed.

(** A run in which a clip is made, no clip is empty, the composite and
    the archive can be written, the key is there and the provider
    answers 200. *)
Lemma create_mashup_success X singer n d email w t key text :
  ext_mkdtemp X = Return t ->
  snd (ext_extract_info X ("ytsearch" ++ Py.str_of_int n ++ ":" ++ singer) n)
    = Return true ->
  run_clips X singer n d t w <> [] ->
  (forall c, In c (run_clips X singer n d t w) -> clip_audio c <> []) ->
  ext_export X (path_join t "mashup.mp3") = None ->
  ext_zip X (path_join t "mashup.zip") = None ->
  assoc "RESEND_API_KEY" (environ w) = Some key -> key <> "" ->
  let archive :=
    ZipFile [("mashup.mp3",
              Mp3 (List.concat (map clip_audio (run_clips X singer n d t w))))] in
  ext_post X resend_url ("Bearer " ++ key) (make_email_data email singer archive)
    = Return (200, text) ->
  fst (create_mashup X singer n d email w) = Return true /\
  trace (snd (create_mashup X singer n d email w)) =
    (trace w ++ [EvMkdtemp (Return t); search_event singer n t;
                 post_event key email singer archive;
                 EvRmtree t (ext_rmtree X t)])%list.
Proof.
  intros Hmk Hinfo Hcs _ Hexp Hzip Hkey Hne archive Hpost.
  pose (w0 := log (EvMkdtemp (Return t)) w).
  pose (w1 := after_download X singer n t w).
  assert (H1 : download_and_convert X singer n t w0
               = (Return (path_join t "downloads"), w1))
    by exact (download_and_convert_ok X singer n t w0 Hinfo).
  assert (He1 : environ w1 = environ w)
    by exact (calm_environ _ _ _ _ (calm_download_and_convert X singer n t) H1).
  assert (Ht1 : trace w1 = (trace w0 ++ [search_event singer n t])%list)
    by exact (proj1 (download_and_convert_world X singer n t w0)).
  destruct (trim_and_merge_run X (path_join t "downloads") d t w1
              (downloads_not_trimmed t) Hcs Hexp) as [w2 [H2 Hread0]].
  assert (Hread : fs_read (path_join t "mashup.mp3") (fs w2) =
                  Some (Mp3 (List.concat (map clip_audio (run_clips X singer n d t w)))))
    by exact Hread0.
  clear Hread0. clearbody w1.
  pose proof (calm_environ _ _ _ _ (calm_trim_and_merge X _ d t) H2) as He2.
  pose proof (silent_trim_and_merge X _ d t _ _ _ H2) as Ht2. unfold same_trace in Ht2.
  destruct (create_zip_run X (path_join t "mashup.mp3") t w2 _ Hread Hzip
              (mashup_not_zip t)) as [w3 [H3 [Hz _]]].
  pose proof (calm_environ _ _ _ _ (calm_create_zip X _ t) H3) as He3.
  pose proof (silent_create_zip X _ t _ _ _ H3) as Ht3. unfold same_trace in Ht3.
  assert (Hkey3 : assoc "RESEND_API_KEY" (environ w3) = Some key).
  { rewrite He3, He2, He1. exact Hkey. }
  pose proof (send_email_posts X (path_join t "mashup.zip") email singer w3 key _
                Hkey3 Hne Hz) as Hs.
  fold archive in Hs. rewrite Hpost in Hs. simpl in Hs.
  destruct (send_email X (path_join t "mashup.zip") email singer w3) as [rs w4] eqn:H4.
  simpl in Hs. subst rs.
  assert (Ht4 : trace w4 = (trace w3 ++ [post_event key email singer archive])%list).
  { destruct (send_email_trace X _ email singer w3 _ w4 H4)
      as [[_ Hf]|[key' [content' [Hk' [_ [Hc' [Ht4 _]]]]]]]; [discriminate Hf|].
    rewrite Hkey3 in Hk'. injection Hk' as <-.
    rewrite Hz in Hc'. injection Hc' as <-. exact Ht4. }
  assert (Hrun : run_stages X singer n d email t w0 = (Return true, w4)).
  { unfold run_stages, bind. rewrite H1, H2, H3, H4. reflexivity. }
  destruct (create_mashup_run X singer n d email w t Hmk (Return true) w4)
    as [w5 [Hc [_ Ht5]]].
  { unfold try_except. fold w0. now rewrite Hrun. }
  rewrite Hc. split; [reflexivity|]. simpl snd.
  rewrite Ht5, Ht4, Ht3, Ht2, Ht1. unfold w0. simpl. rewrite <- !app_assoc.
  reflexivity.
Qed.

(** X11. In a run where a clip is made, no clip is empty, the composite
    and the archive can be written, the key is there and the provider
    answers 200, [create_mashup] returns [True], and what it sent is one
    request whose attachment is the archive of the composite of the
    clips. *)
Theorem create_mashup_delivers_composite X singer n d email w t key text :
  ext_mkdtemp X = Return t ->
  snd (ext_extract_info X ("ytsearch" ++ Py.str_of_int n ++ ":" ++ singer) n)
    = Return true ->
  run_clips X singer n d t w <> [] ->
  (forall c, In c (run_clips X singer n d t w) -> clip_audio c <> []) ->
  ext_export X (path_join t "mashup.mp3") = None ->
  ext_zip X (path_join t "mashup.zip") = None ->
  assoc "RESEND_API_KEY" (environ w) = Some key -> key <> "" ->
  let archive :=
    ZipFile [("mashup.mp3",
              Mp3 (List.concat (map clip_audio (run_clips X singer n d t w))))] in
  ext_post X resend_url ("Bearer " ++ key) (make_email_data email singer archive)
    = Return (200, text) ->
  fst (create_mashup X singer n d email w) = Return true /\
  trace (snd (create_mashup X singer n d email w)) =
    (trace w ++ [EvMkdtemp (Return t); search_event singer n t;
                 post_event key email singer archive;
                 EvRmtree t (ext_rmtree X t)])%list.
Proof. apply create_mashup_success. Qed.

Lemma create_mashup_delivers_composite_witness :
  fst (create_mashup Sample.X0 "Adele" 11 21 "fan@example.org" Sample.w0) = Return true /\
  trace (snd (create_mashup Sample.X0 "Adele" 11 21 "fan@example.org" Sample.w0)) =
    [EvMkdtemp (Return Sample.tmp); search_event "Adele" 11 Sample.tmp;
     post_event "re_123" "fan@example.org" "Adele"
       (ZipFile [("mashup.mp3", Mp3 [1; 1; 1; 3; 3])]);
     EvRmtree Sample.tmp None].
Proof.
  apply (create_mashup_delivers_composite Sample.X0 "Adele" 11 21 "fan@example.org"
           Sample.w0 Sample.tmp "re_123" "{}");
    first [ reflexivity | discriminate | vm_compute; discriminate
          | intros c Hin; vm_compute in Hin;
            destruct Hin as [<-|[<-|[]]]; discriminate ].
Defined.

(** X12. When the search succeeds and no clip is made, the run fails
    with one of the two "no audio" errors, and makes no request to the
    notification provider. *)
Theorem create_mashup_without_clip X singer n d email w t :
  ext_mkdtemp X = Return t ->
  snd (ext_extract_info X ("ytsearch" ++ Py.str_of_int n ++ ":" ++ singer) n)
    = Return true ->
  run_clips X singer n d t w = [] ->
  (fst (create_mashup X singer n d email w)
     = Raise (Exception "No audio files were downloaded") \/
   fst (create_mashup X singer n d email w)
     = Raise (Exception "No audio files could be processed")) /\
  trace (snd (create_mashup X singer n d email w)) =
    (trace w ++ [EvMkdtemp (Return t); search_event singer n t;
                 EvRmtree t (ext_rmtree X t)])%list.
Proof.
  intros Hmk Hinfo Hcs.
  pose (w0 := log (EvMkdtemp (Return t)) w).
  pose (w1 := after_download X singer n t w).
  assert (H1 : download_and_convert X singer n t w0
               = (Return (path_join t "downloads"), w1))
    by exact (download_and_convert_ok X singer n t w0 Hinfo).
  assert (Ht1 : trace w1 = (trace w0 ++ [search_event singer n t])%list)
    by exact (proj1 (download_and_convert_world X singer n t w0)).
  pose proof (trim_and_merge_nothing X (path_join t "downloads") d t w1
                (downloads_not_trimmed t) Hcs) as H2.
  clearbody w1.
  destruct (trim_and_merge X (path_join t "downloads") d t w1) as [r2 w2] eqn:E2.
  simpl in H2. subst r2.
  pose proof (silent_trim_and_merge X _ d t _ _ _ E2) as Ht2. unfold same_trace in Ht2.
  set (msg := match listed_mp3 X (path_join t "downloads") w1 with
              | [] => "No audio files were downloaded"
              | _ :: _ => "No audio files could be processed"
              end) in *.
  assert (Hmsg : msg = "No audio files were downloaded" \/
                 msg = "No audio files could be processed").
  { unfold msg. destruct (listed_mp3 X (path_join t "downloads") w1); auto. }
  assert (Hrun : try_except (run_stages X singer n d email t) classify w0
                 = (Raise (Exception msg), w2)).
  { unfold try_except, run_stages, bind. rewrite H1, E2. unfold classify.
    destruct Hmsg as [->| ->]; reflexivity. }
  destruct (create_mashup_run X singer n d email w t Hmk _ w2 Hrun) as [w3 [Hc [_ Ht3]]].
  rewrite Hc. simpl fst; simpl snd. split.
  - destruct Hmsg as [->| ->]; auto.
  - rewrite Ht3, Ht2, Ht1. unfold w0. simpl. rewrite <- !app_assoc. reflexivity.
Qed.

Lemma create_mashup_without_clip_witness :
  trace (snd (create_mashup
                (mkExternals (Return Sample.tmp)
                   (fun _ _ => ([("a.mp3", Junk "xx")], Return true))
                   (fun names => names) (fun _ => None) (fun _ => None)
                   (fun _ _ _ => Return (200, "{}")) (fun _ => None))
                "Adele" 11 21 "fan@example.org" Sample.w0)) =
    [EvMkdtemp (Return Sample.tmp); search_event "Adele" 11 Sample.tmp;
     EvRmtree Sample.tmp None].
Proof.
  apply (create_mashup_without_clip
           (mkExternals (Return Sample.tmp)
              (fun _ _ => ([("a.mp3", Junk "xx")], Return true))
              (fun names => names) (fun _ => None) (fun _ => None)
              (fun _ _ _ => Return (200, "{}")) (fun _ => None))
           "Adele" 11 21 "fan@example.org" Sample.w0 Sample.tmp); reflexivity.
Defined.

(** X13. The handler answers 200 only when the notification provider
    has answered 200 to a request made in this run, addressed to the
    address that the answer names. *)
Theorem do_POST_success_means_delivered X req w :
  status (fst (do_POST X req w)) = 200 ->
  exists singer email key content text,
    email_shape email /\
    body (fst (do_POST X req w)) =
      [("success", JBool true);
       ("message", JStr ("Mashup created and sent to " ++ email))] /\
    assoc "RESEND_API_KEY" (environ w) = Some key /\
    In (post_event key email singer content) (trace (snd (do_POST X req w))) /\
    ed_to (make_email_data email singer content) = [email] /\
    ext_post X resend_url ("Bearer " ++ key) (make_email_data email singer content)
      = Return (200, text).
Proof.
  intros Hst.
  destruct (handle_post_cases X req w) as [[_ [H|H]]|[singer [n [dur [email
             [_ [_ [_ [Hshape Hpost]]]]]]]]]; try congruence.
  unfold do_POST in *. rewrite Hpost in *. unfold bind in *.
  destruct (create_mashup X singer n dur email w) as [[b|e] w1] eqn:Hc;
    simpl in Hst; [|discriminate Hst].
  destruct (ext_mkdtemp X) as [t|e] eqn:Hmk.
  2:{ rewrite (create_mashup_no_workspace X singer n dur email w e Hmk) in Hc.
      discriminate Hc. }
  destruct (create_mashup_trace X singer n dur email w t Hmk) as [posts [Ht Hp]].
  rewrite Hc in Ht, Hp. simpl in Ht, Hp.
  destruct Hp as [[_ Hf]|[key [content [Hk [-> Hok]]]]]; [discriminate Hf|].
  destruct (Hok eq_refl) as [text Htext].
  exists singer, email, key, content, text. simpl.
  split; [exact Hshape|]. split; [reflexivity|]. split; [exact Hk|].
  split; [|split; [reflexivity | exact Htext]].
  rewrite Ht. apply in_or_app. right. simpl. auto.
Qed.

Lemma do_POST_success_means_delivered_witness :
  exists singer email key content text,
    email_shape email /\
    body (fst (do_POST Sample.X0 Sample.string_request Sample.w0)) =
      [("success", JBool true);
       ("message", JStr ("Mashup created and sent to " ++ email))] /\
    assoc "RESEND_API_KEY" (environ Sample.w0) = Some key /\
    In (post_event key email singer content)
       (trace (snd (do_POST Sample.X0 Sample.string_request Sample.w0))) /\
    ed_to (make_email_data email singer content) = [email] /\
    ext_post Sample.X0 resend_url ("Bearer " ++ key)
      (make_email_data email singer content) = Return (200, text).
Proof.
  apply (do_POST_success_means_delivered Sample.X0 Sample.string_request Sample.w0).
  vm_compute. reflexivity.
Defined.

(** ** The time-out test *)

Lemma lower_append a b : Py.lower (a ++ b) = Py.lower a ++ Py.lower b.
Proof. induction a as [|c a IH]; simpl; [reflexivity | now rewrite IH]. Qed.

Lemma prefix_append_r needle : forall u post,
  String.prefix needle u = true -> String.prefix needle (u ++ post) = true.
Proof.
  induction needle as [|c needle IH]; intros u post H.
  - destruct (u ++ post); reflexivity.
  - destruct u as [|c' u]; simpl in *; [discriminate H|].
    destruct (ascii_dec c c'); [now apply IH | discriminate H].
Qed.

Lemma contains_append_r needle s post :
  Py.contains needle s = true -> Py.contains needle (s ++ post) = true.
Proof.
  induction s as [|c s IH]; cbn [Py.contains]; intros H.
  - rewrite orb_false_r in H. destruct needle; [|discriminate H].
    destruct post; reflexivity.
  - change (String c s ++ post) with (String c (s ++ post)). cbn [Py.contains].
    apply orb_prop in H. destruct H as [H|H].
    + apply (prefix_append_r _ _ post) in H.
      change (String c s ++ post) with (String c (s ++ post)) in H. now rewrite H.
    + rewrite (IH H). apply orb_true_r.
Qed.

Lemma contains_inside needle pre s post :
  Py.contains needle s = true -> Py.contains needle (pre ++ s ++ post) = true.
Proof.
  intros H. apply (contains_append_r _ _ post) in H.
  induction pre as [|c pre IH]; [exact H|].
  change (String c pre ++ s ++ post) with (String c (pre ++ s ++ post)).
  cbn [Py.contains]. rewrite IH. apply orb_true_r.
Qed.

(** X14. The test of the [except] clause comes down to one search: the
    failure message, in lower case, contains "time". The search for
    "timeout" adds nothing. *)
Theorem looks_time_based_is_one_test msg :
  looks_time_based msg = Py.contains "time" (Py.lower msg).
Proof. apply looks_time_based_one. Qed.

(** X15. When the provider finds nothing for a singer whose name, in
    lower case, contains "time", the run fails with the time-out hint:
    the error that names the singer is replaced. *)
Theorem create_mashup_hint_for_singer_name X singer n d email w t :
  ext_mkdtemp X = Return t ->
  snd (ext_extract_info X ("ytsearch" ++ Py.str_of_int n ++ ":" ++ singer) n)
    = Return false ->
  Py.contains "time" (Py.lower singer) = true ->
  fst (create_mashup X singer n d email w) = Raise timeout_hint.
Proof.
  intros Hmk Hinfo Hname.
  set (w0 := log (EvMkdtemp (Return t)) w).
  pose proof (download_and_convert_run X singer n t w0) as H1. rewrite Hinfo in H1.
  destruct (download_and_convert X singer n t w0) as [r1 w1] eqn:E1. simpl in H1.
  subst r1.
  destruct (create_mashup_run X singer n d email w t Hmk (Raise timeout_hint) w1)
    as [w2 [Hc _]].
  - assert (Hlt : looks_time_based
                    ("Download failed: Could not find videos for '" ++ singer ++ "'")
                  = true).
    { rewrite looks_time_based_one.
      rewrite (lower_append "Download failed: Could not find videos for '").
      rewrite (lower_append singer "'").
      now apply contains_inside. }
    unfold try_except, run_stages, bind. fold w0. rewrite E1. unfold classify.
    replace (looks_time_based _) with true by (symmetry; exact Hlt).
    reflexivity.
  - now rewrite Hc.
Qed.

Lemma create_mashup_hint_for_singer_name_witness :
  fst (create_mashup Sample.X_none "Justin Time" 11 21 "fan@example.org" Sample.w0)
    = Raise timeout_hint.
Proof.
  apply (create_mashup_hint_for_singer_name Sample.X_none "Justin Time" 11 21
           "fan@example.org" Sample.w0 Sample.tmp); reflexivity.
Defined.

(** ** Trimming and merging, in full *)

(** [trim_and_merge], when at least one clip is made: the outcome is
    that of the export of the composite. *)
Lemma trim_and_merge_outcome X downloads_dir duration temp_dir w :
  downloads_dir <> path_join temp_dir "trimmed" ->
  clips X downloads_dir (path_join temp_dir "trimmed") duration (fs w)
    (enumerate (listed_mp3 X downloads_dir w) 1) <> [] ->
  fst (trim_and_merge X downloads_dir duration temp_dir w) =
    match ext_export X (path_join temp_dir "mashup.mp3") with
    | None => Return (path_join temp_dir "mashup.mp3")
    | Some e => Raise e
    end.
Proof.
  intros Hsep Hcs.
  destruct (ext_export X (path_join temp_dir "mashup.mp3")) as [e|] eqn:Hexp.
  2:{ destruct (trim_and_merge_run X downloads_dir duration temp_dir w Hsep Hcs Hexp)
        as [w' [-> _]]. reflexivity. }
  destruct (trim_loop_run X downloads_dir (path_join temp_dir "trimmed") duration Hsep
              (enumerate (listed_mp3 X downloads_dir w) 1) [] w) as [w1 [Hloop Hfs]].
  simpl app in Hloop.
  assert (Hnd : NoDup (map clip_path
                  (clips X downloads_dir (path_join temp_dir "trimmed") duration (fs w)
                     (enumerate (listed_mp3 X downloads_dir w) 1))))
    by apply clips_paths_NoDup.
  assert (Hmp3 : enumerate (listed_mp3 X downloads_dir w) 1 <> []).
  { intros E. apply Hcs. rewrite E. reflexivity. }
  remember (clips X downloads_dir (path_join temp_dir "trimmed") duration (fs w)
              (enumerate (listed_mp3 X downloads_dir w) 1)) as cs eqn:Ecs.
  clear Ecs.
  assert (Hmerge : merge_loop (map clip_path cs) [] w1 =
                   (Return (List.concat (map clip_audio cs)), w1)).
  { apply (merge_loop_run cs [] w1). intros c Hin. rewrite Hfs.
    now apply fold_write_read. }
  unfold trim_and_merge, bind, makedirs, ret, listdir.
  change (filter (Py.endswith ".mp3")
            (ext_listdir_order X (fs_names downloads_dir (fs w))))
    with (listed_mp3 X downloads_dir w).
  destruct (listed_mp3 X downloads_dir w) as [|name names].
  { exfalso. now apply Hmp3. }
  rewrite Hloop. cbv beta iota.
  destruct cs as [|c0 cs0]; [congruence|].
  change (map clip_path (c0 :: cs0)) with (clip_path c0 :: map clip_path cs0) at 1.
  cbv beta iota. rewrite Hmerge. unfold export. rewrite Hexp. reflexivity.
Qed.

(** X16. When no clip is empty, [trim_and_merge] returns exactly when
    at least one listed source yields a clip and the composite can be
    written; the downloads directory being another than the [trimmed]
    directory. *)
Theorem trim_and_merge_returns_iff X downloads_dir duration temp_dir w :
  downloads_dir <> path_join temp_dir "trimmed" ->
  (forall c,
     In c (clips X downloads_dir (path_join temp_dir "trimmed") duration (fs w)
             (enumerate (listed_mp3 X downloads_dir w) 1)) ->
     clip_audio c <> []) ->
  (is_return (fst (trim_and_merge X downloads_dir duration temp_dir w)) = true <->
   clips X downloads_dir (path_join temp_dir "trimmed") duration (fs w)
     (enumerate (listed_mp3 X downloads_dir w) 1) <> [] /\
   ext_export X (path_join temp_dir "mashup.mp3") = None).
Proof.
  intros Hsep _.
  destruct (clips X downloads_dir (path_join temp_dir "trimmed") duration (fs w)
              (enumerate (listed_mp3 X downloads_dir w) 1)) as [|c cs] eqn:Ecs.
  - rewrite (trim_and_merge_nothing X downloads_dir duration temp_dir w Hsep Ecs).
    simpl. split; [discriminate | intros [H _]; congruence].
  - rewrite (trim_and_merge_outcome X downloads_dir duration temp_dir w Hsep)
      by (rewrite Ecs; discriminate).
    destruct (ext_export X (path_join temp_dir "mashup.mp3")); simpl; split.
    + discriminate.
    + intros [_ H]. discriminate H.
    + intros _. split; [discriminate | reflexivity].
    + reflexivity.
Qed.

Lemma trim_and_merge_returns_iff_witness :
  is_return (fst (trim_and_merge Sample.X0 (path_join Sample.tmp "downloads") 21
                    Sample.tmp Sample.w_fetched)) = true.
Proof.
  apply (trim_and_merge_returns_iff Sample.X0 (path_join Sample.tmp "downloads") 21
           Sample.tmp Sample.w_fetched (downloads_not_trimmed Sample.tmp)).
  - intros c Hin. vm_compute in Hin. destruct Hin as [<-|[<-|[]]]; discriminate.
  - split; [vm_compute; discriminate | reflexivity].
Defined.

(** X17. After the trimming loop, the file of every clip holds the
    waveform of that clip: the clips have distinct files, and no clip
    has overwritten another. *)
Theorem trim_loop_clips_on_disk X downloads_dir trimmed_dir duration names w :
  downloads_dir <> trimmed_dir ->
  let cs := clips X downloads_dir trimmed_dir duration (fs w) (enumerate names 1) in
  NoDup (map clip_path cs) /\
  forall c, In c cs ->
    fs_read (clip_path c)
      (fs (snd (trim_loop X downloads_dir trimmed_dir duration (enumerate names 1) [] w)))
    = Some (Mp3 (clip_audio c)).
Proof.
  intros Hsep cs.
  assert (Hnd : NoDup (map clip_path cs)) by apply clips_paths_NoDup.
  split; [exact Hnd|]. intros c Hin.
  destruct (trim_loop_run X downloads_dir trimmed_dir duration Hsep
              (enumerate names 1) [] w) as [w' [Hloop Hfs]].
  rewrite Hloop. simpl snd. rewrite Hfs. now apply fold_write_read.
Qed.

Lemma trim_loop_clips_on_disk_witness :
  fs_read (path_join (path_join Sample.tmp "trimmed") "trimmed_3.mp3")
    (fs (snd (trim_loop Sample.X0 (path_join Sample.tmp "downloads")
                (path_join Sample.tmp "trimmed") 21
                (enumerate ["a.mp3"; "b.mp3"; "c.mp3"] 1) [] Sample.w_fetched)))
  = Some (Mp3 [3; 3]).
Proof.
  destruct (trim_loop_clips_on_disk Sample.X0 (path_join Sample.tmp "downloads")
              (path_join Sample.tmp "trimmed") 21 ["a.mp3"; "b.mp3"; "c.mp3"]
              Sample.w_fetched (downloads_not_trimmed Sample.tmp)) as [_ H].
  apply (H (mkClip 3 (path_join (path_join Sample.tmp "trimmed") "trimmed_3.mp3") [3; 3])).
  vm_compute. right. left. reflexivity.
Defined.
